(** * quantms.io feature pipeline: a shallow embedding of [quantmsio/core/feature.py]

    The pandas DataFrame is modelled row-wise: a frame carries its column
    labels and one finite map per row.  Python exceptions are values of
    [error]; every function of the source that may raise returns a
    [result].  The functions of [Feature] keep their names.  The helpers of
    the [quantms] command, [quantmsio/commands/convert/quantms.py], and the
    [maxquant-feature] command, [quantmsio/commands/convert/maxquant.py], are
    embedded beside it. *)

From Stdlib Require Import QArith Qcanon.
From stdpp Require Import base option list strings pretty countable gmap.

Local Open Scope string_scope.

(** ** Cell values *)

(** A cell of a DataFrame: a missing value (Python [None], a float NaN or
    [pd.NA]), a number (an integer or a float, compared by numeric value as
    Python does for [2 == 2.0]), a string, or an opaque payload such as the
    [additional_scores] and [cv_params] structures. *)
Inductive value : Type :=
| VNull
| VNum (q : Qc)
| VStr (s : string)
| VObj (n : nat).

Global Instance value_eq_dec : EqDecision value.
Proof. solve_decision. Defined.

Definition value_code (v : value) : unit + Qc + string + nat :=
  match v with
  | VNull => inl (inl (inl tt))
  | VNum q => inl (inl (inr q))
  | VStr s => inl (inr s)
  | VObj n => inr n
  end.

Definition value_decode (x : unit + Qc + string + nat) : value :=
  match x with
  | inl (inl (inl _)) => VNull
  | inl (inl (inr q)) => VNum q
  | inl (inr s) => VStr s
  | inr n => VObj n
  end.

Global Instance value_countable : Countable value.
Proof.
  apply (inj_countable' value_code value_decode).
  by intros [].
Defined.

Definition is_null (v : value) : bool :=
  match v with VNull => true | _ => false end.

(** ** Exceptions *)

Inductive error : Type :=
| KeyError (label : string)
| IndexError
| TypeError
| ValueError
| Exception (msg : string).

Inductive result (A : Type) : Type :=
| Ok (a : A)
| Err (e : error).
Arguments Ok {A} a.
Arguments Err {A} e.

Global Instance result_bind : MBind result := λ A B f x,
  match x with Ok a => f a | Err e => Err e end.
Global Instance result_ret : MRet result := λ A a, Ok a.

Fixpoint map_result {A B} (f : A → result B) (l : list A) : result (list B) :=
  match l with
  | [] => Ok []
  | a :: l' => b ← f a; bs ← map_result f l'; Ok (b :: bs)
  end.

Fixpoint fold_result {A S} (f : S → A → result S) (s : S) (l : list A) : result S :=
  match l with
  | [] => Ok s
  | a :: l' => s' ← f s a; fold_result f s' l'
  end.

(** [l[i]] on a Python list. *)
Definition list_get (l : list value) (i : nat) : result value :=
  match l !! i with Some v => Ok v | None => Err IndexError end.

(** ** DataFrames *)

Abbreviation row := (gmap string value).
Abbreviation pydict := (gmap (list value) (list value)).

Record DataFrame : Type := mkDataFrame {
  columns : list string;
  rows : list row
}.

(** [row[c]] of a row taken out of a frame *)
Definition cell (r : row) (c : string) : value := default VNull (r !! c).

Definition has_column (df : DataFrame) (c : string) : bool :=
  bool_decide (c ∈ columns df).

(** [df[c]]: the values of one column, or [KeyError] *)
Definition column (df : DataFrame) (c : string) : result (list value) :=
  if has_column df c then Ok ((λ r, cell r c) <$> rows df) else Err (KeyError c).

Definition add_label (c : string) (cols : list string) : list string :=
  if bool_decide (c ∈ cols) then cols else cols ++ [c].

(** [df[c] = vs] / [df.loc[:, c] = vs]: replaces the column, or appends it *)
Definition set_column (c : string) (vs : list value) (df : DataFrame) : DataFrame :=
  {| columns := add_label c (columns df);
     rows := zip_with (λ r v, <[c := v]> r) (rows df) vs |}.

(** [df.loc[:, c] = v] with a scalar [v] *)
Definition set_scalar (c : string) (v : value) (df : DataFrame) : DataFrame :=
  set_column c (replicate (length (rows df)) v) df.

(** [df[[c1, ..., cn]]]: the sub-frame of the named columns *)
Definition select_columns (df : DataFrame) (cs : list string) : result DataFrame :=
  match list_find (λ c, ¬ c ∈ columns df) cs with
  | Some (_, c) => Err (KeyError c)
  | None =>
      Ok {| columns := cs;
            rows := (λ r, filter (λ kv, kv.1 ∈ cs) r) <$> rows df |}
  end.

(** [df.iloc[i]]: the row at position [i] *)
Definition iloc (df : DataFrame) (i : nat) : result row :=
  match rows df !! i with Some r => Ok r | None => Err IndexError end.

(** [series[c]] on a row taken out of [df] *)
Definition row_get (df : DataFrame) (r : row) (c : string) : result value :=
  if has_column df c then Ok (cell r c) else Err (KeyError c).

(** ** pandas operations used by the pipeline *)

(** [Series.idxmin()] after [reset_index(drop=True)]: the position of the
    first occurrence of the minimum, missing values skipped.  The first
    component is the position, the second the minimum.  A column that holds
    something else than numbers has no minimum ([TypeError]); a column with
    no number at all gives no position, and [iloc] then fails. *)
Fixpoint first_min (vs : list value) : result (option (nat * Qc)) :=
  match vs with
  | [] => Ok None
  | VNull :: vs' =>
      o ← first_min vs';
      Ok (match o with Some (j, b) => Some (S j, b) | None => None end)
  | VNum q :: vs' =>
      o ← first_min vs';
      Ok (match o with
          | Some (j, b) => if bool_decide (b < q)%Qc then Some (S j, b) else Some (0, q)
          | None => Some (0, q)
          end)
  | _ :: _ => Err TypeError
  end.

Definition idxmin (vs : list value) : result nat :=
  o ← first_min vs;
  match o with Some (i, _) => Ok i | None => Err ValueError end.

(** The tuple of the values of a row in the grouping columns. *)
Definition key_of (by_ : list string) (r : row) : list value := cell r <$> by_.

Definition psm_columns : list string :=
  ["reference_file_name"; "peptidoform"; "precursor_charge"].

Definition map_features : list string :=
  ["posterior_error_probability"; "calculated_mz"; "observed_mz";
   "mp_accessions"; "is_decoy"; "additional_scores"; "cv_params"].

Definition placeholder_columns : list string :=
  ["additional_intensities"; "predicted_rt"; "gg_accessions"; "gg_names";
   "rt_start"; "rt_stop"; "ion_mobility"; "start_ion_mobility";
   "stop_ion_mobility"].

Definition float_columns : list string :=
  ["pg_global_qvalue"; "calculated_mz"; "observed_mz";
   "posterior_error_probability"].

(** The [Psm] reader of an mzTab file, whose class is outside this module:
    the chunks [iter_psm_table] yields and the peptide-level index
    [extract_from_pep] returns. *)
Record Psm : Type := mkPsm {
  iter_psm_table : list DataFrame;
  extract_from_pep : pydict
}.

(** An argument a caller may pass for [partitions]. *)
Inductive pyobj : Type :=
| PyList (l : list string)
| PyStr (s : string)
| PyNone.

(** ** Resources and effects *)

(** What the run does to the outside world, in the order it does it. *)
Inductive event : Type :=
| PsmExtracted
| DuckdbCreated
| BatchGenerated
| BatchReported
| SliceYielded (key : list value)
| DuckdbDestroyed.

Inductive db_state : Type := DbAbsent | DbLive | DbDestroyed.

(** A parquet sink: the tables written to it and how often it was closed. *)
Record writer : Type := mkWriter {
  written : list DataFrame;
  closes : nat
}.

Record world : Type := mkWorld {
  trace : list event;
  duckdb : db_state;
  pqwriters : gmap (list value) writer
}.

Definition initial_world : world :=
  {| trace := []; duckdb := DbAbsent; pqwriters := ∅ |}.

(** A computation that changes the world and returns or raises; the world
    reached when it raises is the one its caller finds. *)
Definition io (A : Type) : Type := world → world * result A.

Global Instance io_ret : MRet io := λ A a w, (w, Ok a).
Global Instance io_bind : MBind io := λ A B f m w,
  match m w with
  | (w', Ok a) => f a w'
  | (w', Err e) => (w', Err e)
  end.

Definition lift {A} (r : result A) : io A := λ w, (w, r).

Definition emit (e : event) : io unit := λ w,
  ({| trace := trace w ++ [e]; duckdb := duckdb w; pqwriters := pqwriters w |}, Ok tt).

Definition set_duckdb (s : db_state) : io unit := λ w,
  ({| trace := trace w; duckdb := s; pqwriters := pqwriters w |}, Ok tt).

Definition set_pqwriters (p : gmap (list value) writer) : io unit := λ w,
  ({| trace := trace w; duckdb := duckdb w; pqwriters := p |}, Ok tt).

(** A [for] loop whose body may raise. *)
Fixpoint for_each {A} (l : list A) (body : A → io unit) : io unit :=
  match l with
  | [] => mret tt
  | a :: l' => _ ← body a; for_each l' body
  end.

(** Modelled from the spec: [MsstatsIN] of [quantmsio.core.msstats_in], which
    is outside this module.  Constructing it sets up the ephemeral duckdb
    database that backs the quantification stream, and
    [destroy_duckdb_database] releases it. *)
Definition MsstatsIN : io unit :=
  _ ← emit DuckdbCreated; set_duckdb DbLive.

Definition destroy_duckdb_database : io unit :=
  _ ← emit DuckdbDestroyed; set_duckdb DbDestroyed.

(** Modelled from the spec: [save_slice_file] of [quantmsio.utils.file_utils],
    which is outside this module.  It appends the table to the sink of the
    key, opening a new sink the first time the key is seen and reusing it
    afterwards. *)
Definition save_slice_file (feature : DataFrame) (key : list value) : io unit := λ w,
  let sink := default {| written := []; closes := 0 |} (pqwriters w !! key) in
  ({| trace := trace w; duckdb := duckdb w;
      pqwriters := <[key := {| written := written sink ++ [feature];
                               closes := closes sink |}]> (pqwriters w) |}, Ok tt).

(** Modelled from the spec: [close_file] of [quantmsio.utils.file_utils],
    which is outside this module.  It closes every sink of the table. *)
Definition close_file : io unit := λ w,
  ({| trace := trace w; duckdb := duckdb w;
      pqwriters := (λ s, {| written := written s; closes := S (closes s) |})
                     <$> pqwriters w |}, Ok tt).

(** ** The [quantms] command: [quantmsio/commands/convert/quantms.py] *)

(** [s.split(sep)[0]] for a separator that is not empty: the part of [s]
    before the first occurrence of [sep], and all of [s] when [sep] does not
    occur in it. *)
Fixpoint split_head (sep s : string) : string :=
  if String.prefix sep s then EmptyString
  else match s with
       | EmptyString => EmptyString
       | String c s' => String c (split_head sep s')
       end.

(** [get_project_prefix], on the name of the SDRF file. *)
Definition get_project_prefix (filename : string) : string :=
  split_head "_openms" (split_head ".sdrf" filename).

(** [sep] occurs in [s]. *)
Definition occurs (sep s : string) : Prop := ∃ a b : string, s = a ++ sep ++ b.

(** [find_file]: the first match of the pattern, or [None]. *)
Definition find_file (matches : list string) : option string :=
  match matches with
  | [] => None
  | file :: _ => Some file
  end.

(** The exceptions of the command. *)
Inductive cli_error : Type :=
| UsageError (message : string)
| NameError (name : string)
| OtherError (n : nat).

(** What a run of the workflow does, in the order it does it; the
    progress messages it prints on the way are left out. *)
Inductive cli_event : Type :=
| DirectoryChecked
| ProjectInitialized
| ProjectInitFailed (e : cli_error)
| FeatureConverted
| FeatureConversionFailed (e : cli_error)
| PsmConverted
| PsmConversionFailed (e : cli_error).

(** The names bound at the top level of the module: its imports and its
    functions. *)
Definition module_names : list string :=
  ["Path"; "os"; "Optional"; "sys"; "click"; "create_uuid_filename"; "convert_feature";
   "convert_psm"; "find_file"; "get_project_prefix"; "check_dir"; "quantmsio_workflow";
   "convert_quantms_project_cmd"].

(** The evaluation of a global name that is no builtin. *)
Definition load_global (name : string) : option cli_error :=
  if bool_decide (name ∈ module_names) then None else Some (NameError name).

(** What the workflow finds in the project directory, and what the
    functions of other modules do when it calls them: [None] when the call
    returns, the exception when it raises. *)
Record project_dir : Type := mkProjectDir {
  mztab_matches : list string;
  msstats_matches : list string;
  sdrf_matches : list string;
  mzml_stats_exists : bool;
  resolve : option cli_error;
  check_dir : option cli_error;
  project_setup : option cli_error;
  convert_feature : option cli_error;
  convert_psm : option cli_error
}.

(** The list [missing] of the workflow. *)
Definition missing_files (d : project_dir) : list string :=
  ((if find_file (mztab_matches d) is Some _ then [] else ["mzTab file"])
   ++ (if find_file (msstats_matches d) is Some _ then [] else ["MSstats input file"])
   ++ (if find_file (sdrf_matches d) is Some _ then [] else ["SDRF file"])
   ++ (if mzml_stats_exists d then [] else ["mzML statistics"]))%list.

(** The body of the first [try] statement: the call of [check_directory]
    and the calls on the project handler it returns. *)
Definition initialize_project (d : project_dir) : option cli_error :=
  match load_global "check_directory" with
  | Some e => Some e
  | None => project_setup d
  end.

(** [quantmsio_workflow]: the events of the run and, when it raises, the
    exception. *)
Definition quantmsio_workflow (d : project_dir) : list cli_event * option cli_error :=
  if negb (bool_decide (is_Some (find_file (mztab_matches d)))
           && bool_decide (is_Some (find_file (msstats_matches d)))
           && bool_decide (is_Some (find_file (sdrf_matches d)))
           && mzml_stats_exists d)
  then ([], Some (UsageError ("❌ Missing required files: "
                              ++ String.concat ", " (missing_files d))))
  else
    match resolve d with
    | Some e => ([], Some e)
    | None =>
        match check_dir d with
        | Some e => ([], Some e)
        | None =>
            match initialize_project d with
            | Some e => ([DirectoryChecked; ProjectInitFailed e], None)
            | None =>
                let feature :=
                  match convert_feature d with
                  | None => FeatureConverted
                  | Some e => FeatureConversionFailed e
                  end in
                let psm :=
                  match convert_psm d with
                  | None => PsmConverted
                  | Some e => PsmConversionFailed e
                  end in
                ([DirectoryChecked; ProjectInitialized; feature; psm], None)
            end
        end
    end.

(** An event of a conversion that was started. *)
Definition conversion_event (ev : cli_event) : bool :=
  match ev with
  | FeatureConverted | FeatureConversionFailed _ | PsmConverted
  | PsmConversionFailed _ => true
  | _ => false
  end.

(** ** The [maxquant-feature] command: [quantmsio/commands/convert/maxquant.py] *)

(** [s.split(sep)] for a separator of one character: the fields between
    the occurrences of [sep], empty fields included. *)
Fixpoint split (sep : Ascii.ascii) (s : string) : list string :=
  match s with
  | EmptyString => [EmptyString]
  | String c s' =>
      if bool_decide (c = sep) then EmptyString :: split sep s'
      else match split sep s' with
           | field :: fields => String c field :: fields
           | [] => [String c EmptyString]
           end
  end.

(** The character [","]. *)
Definition comma : Ascii.ascii := Ascii.ascii_of_nat 44.

(** The call the command ends with. *)
Inductive maxquant_call : Type :=
| write_feature_to_file_call (output_path : string)
| write_features_to_file_call (output_folder filename : string)
    (partitions : list string).

(** [convert_maxquant_feature_cmd], up to the call of the writer.  An option
    that was not given is [None]; [create_uuid_filename] belongs to another
    module. *)
Definition convert_maxquant_feature_cmd (create_uuid_filename : string → string → string)
    (evidence_file sdrf_file output_folder partitions output_prefix : option string)
  : cli_error + maxquant_call :=
  match evidence_file, sdrf_file, output_folder with
  | Some _, Some _, Some output_folder =>
      let output_prefix :=
        match output_prefix with
        | None | Some EmptyString => "feature"
        | Some prefix => prefix
        end in
      let filename := create_uuid_filename output_prefix ".feature.parquet" in
      let output_path := (output_folder ++ "/" ++ filename)%string in
      match partitions with
      | None | Some EmptyString => inr (write_feature_to_file_call output_path)
      | Some partitions =>
          inr (write_features_to_file_call output_folder filename (split comma partitions))
      end
  | _, _, _ => inl (UsageError "Please provide all the required parameters")
  end.

Section Feature.

Set Default Proof Using "Type".

(** [groupby] yields its groups in the order of the sorted keys; the
    pipeline depends on no particular order. *)
Variable sort_keys : list (list value) → list (list value).
Hypothesis sort_keys_perm : ∀ ks, sort_keys ks ≡ₚ ks.

(** The parser behind [pd.to_numeric] and the one behind [float(str)]. *)
Variable parse_numeric : string → option Qc.
Variable parse_float : string → option Qc.

(** Python's [str] on numbers and on payload objects. *)
Variable str_num : Qc → string.
Variable str_obj : nat → string.

(** State of the [Feature] object, built by [__init__] from the mzTab file
    by methods of the [MzTab] base class. *)
Variable protein_global_qvalue_map : gmap value value.
Variable generate_modifications_details : value → value * value.
Variable get_protein_accession : value → value.

(** [pa.Table.from_pandas(df, schema=FEATURE_SCHEMA)] *)
Variable table_from_pandas : DataFrame → result DataFrame.

(** *** [DataFrame.groupby] *)

(** Keys with a missing component form no group ([dropna=True], the
    default). *)
Definition group_keys (by_ : list string) (df : DataFrame) : list (list value) :=
  sort_keys (remove_dups (filter (λ k, VNull ∉ k) (key_of by_ <$> rows df))).

Definition group_of (by_ : list string) (df : DataFrame) (k : list value) : DataFrame :=
  {| columns := columns df;
     rows := filter (λ r, key_of by_ r = k) (rows df) |}.

Definition groupby (df : DataFrame) (by_ : list string)
  : result (list (list value * DataFrame)) :=
  match list_find (λ c, c ∉ columns df) by_ with
  | Some (_, c) => Err (KeyError c)
  | None => Ok ((λ k, (k, group_of by_ df k)) <$> group_keys by_ df)
  end.

(** *** [Feature.extract_psm_msg] *)

Definition float (v : value) : result Qc :=
  match v with
  | VNum q => Ok q
  | VStr s => match parse_float s with Some q => Ok q | None => Err ValueError end
  | _ => Err TypeError
  end.

(** The body of the inner loop: one group [df] of key [key]. *)
Definition update_best (map_dict : pydict) (key : list value) (df : DataFrame)
  : result pydict :=
  peps ← column df "posterior_error_probability";
  i ← idxmin peps;
  temp_df ← iloc df i;
  let map_dict :=
    match map_dict !! key with
    | None => <[key := replicate 7 VNull]> map_dict
    | Some _ => map_dict
    end in
  pep_value ← row_get df temp_df "posterior_error_probability";
  let entry := default [] (map_dict !! key) in
  stored ← list_get entry 0;
  better ← (if is_null stored then Ok true
            else a ← float stored; b ← float pep_value; Ok (bool_decide (b < a)%Qc));
  if better : bool then
    v1 ← row_get df temp_df "calculated_mz";
    v2 ← row_get df temp_df "observed_mz";
    v3 ← row_get df temp_df "mp_accessions";
    v4 ← row_get df temp_df "is_decoy";
    v5 ← row_get df temp_df "additional_scores";
    v6 ← row_get df temp_df "cv_params";
    Ok (<[key := <[6 := v6]> (<[5 := v5]> (<[4 := v4]> (<[3 := v3]>
                 (<[2 := v2]> (<[1 := v1]> (<[0 := pep_value]> entry))))))]> map_dict)
  else Ok map_dict.

Definition extract_chunk (map_dict : pydict) (psm_chunk : DataFrame) : result pydict :=
  groups ← groupby psm_chunk psm_columns;
  fold_result (λ m g, update_best m g.1 g.2) map_dict groups.

Definition extract_psm_msg (psm : Psm) : result (pydict * pydict) :=
  let pep_dict := extract_from_pep psm in
  map_dict ← fold_result extract_chunk ∅ (iter_psm_table psm);
  Ok (map_dict, pep_dict).

(** *** [Feature.merge_msstats_and_psm] *)

Definition merge_psm (map_dict : pydict) (rows : row) (index : nat) : result value :=
  let key := [cell rows "reference_file_name"; cell rows "peptidoform";
              cell rows "precursor_charge"] in
  match map_dict !! key with
  | Some t => list_get t index
  | None => Ok VNull
  end.

(** One round of the loop over [map_features]. *)
Definition merge_feature (map_dict : pydict) (msstats : DataFrame)
    (i : nat) (feature : string) : result DataFrame :=
  sub ← select_columns msstats psm_columns;
  vs ← map_result (λ rows, merge_psm map_dict rows i) (rows sub);
  Ok (set_column feature vs msstats).

Definition merge_msstats_and_psm (msstats : DataFrame) (map_dict : pydict)
  : result DataFrame :=
  fold_result (λ msstats p, merge_feature map_dict msstats p.1 p.2)
    msstats (imap pair map_features).

(** The value [merge_psm] finds for a row in an index of 7-tuples. *)
Definition looked_up (map_dict : pydict) (r : row) (i : nat) : value :=
  match map_dict !! key_of psm_columns r with
  | Some t => default VNull (t !! i)
  | None => VNull
  end.

(** *** [Feature.generate_best_scan] and [Feature.add_additional_msg] *)

Definition generate_best_scan (rows : row) (pep_dict : pydict) : result (value * value) :=
  let key := [cell rows "peptidoform"; cell rows "precursor_charge"] in
  match pep_dict !! key with
  | Some t => a ← list_get t 1; b ← list_get t 2; Ok (a, b)
  | None => Ok (VNull, VNull)
  end.

(** [Series.map(d)] with a dict [d]: a value that is no key of it maps to NaN *)
Definition map_dict_values (d : gmap value value) (vs : list value) : list value :=
  (λ v, default VNull (d !! v)) <$> vs.

Definition add_pg_global_qvalue (msstats : DataFrame) : result DataFrame :=
  acc ← column msstats "mp_accessions";
  Ok (set_column "pg_global_qvalue"
        (map_dict_values protein_global_qvalue_map acc) msstats).

Definition add_best_scan (msstats : DataFrame) (pep_dict : pydict) : result DataFrame :=
  sub ← select_columns msstats ["peptidoform"; "precursor_charge"];
  scans ← map_result (λ rows, generate_best_scan rows pep_dict) (rows sub);
  let msstats := set_column "scan_reference_file_name" (scans.*1) msstats in
  Ok (set_column "scan" (scans.*2) msstats).

Definition add_modifications (msstats : DataFrame) : result DataFrame :=
  sub ← select_columns msstats ["peptidoform"];
  let mods := (λ row, generate_modifications_details (cell row "peptidoform"))
                <$> rows sub in
  let msstats := set_column "peptidoform" (mods.*1) msstats in
  Ok (set_column "modifications" (mods.*2) msstats).

Definition normalise_accessions (msstats : DataFrame) : result DataFrame :=
  acc ← column msstats "mp_accessions";
  Ok (set_column "mp_accessions" (get_protein_accession <$> acc) msstats).

Definition add_placeholders (msstats : DataFrame) : DataFrame :=
  let msstats := set_scalar "additional_intensities" VNull msstats in
  let msstats := set_scalar "predicted_rt" VNull msstats in
  let msstats := set_scalar "gg_accessions" VNull msstats in
  let msstats := set_scalar "gg_names" VNull msstats in
  let msstats := set_scalar "rt_start" VNull msstats in
  let msstats := set_scalar "rt_stop" VNull msstats in
  let msstats := set_scalar "ion_mobility" VNull msstats in
  let msstats := set_scalar "start_ion_mobility" VNull msstats in
  set_scalar "stop_ion_mobility" VNull msstats.

(** The statements of [add_additional_msg], in the order of the source. *)
Definition add_additional_msg (msstats : DataFrame) (pep_dict : pydict)
  : result DataFrame :=
  msstats ← add_pg_global_qvalue msstats;
  msstats ← add_best_scan msstats pep_dict;
  msstats ← add_modifications msstats;
  msstats ← normalise_accessions msstats;
  Ok (add_placeholders msstats).

(** *** [Feature.convert_to_parquet_format] *)

(** [pd.to_numeric(., errors="coerce")] on one value *)
Definition coerce_numeric (v : value) : value :=
  match v with
  | VNum q => VNum q
  | VStr s => match parse_numeric s with Some q => VNum q | None => VNull end
  | _ => VNull
  end.

Definition to_numeric (vs : list value) : list value := coerce_numeric <$> vs.

Definition is_int32 (q : Qc) : bool :=
  bool_decide (Qden q = 1%positive)
  && bool_decide (- 2 ^ 31 ≤ Qnum q)%Z && bool_decide (Qnum q < 2 ^ 31)%Z.

(** [.astype("Int32")] on one value of a numeric column: a missing value
    stays missing, a number that is no 32-bit integer cannot be cast *)
Definition cast_Int32 (v : value) : result value :=
  match v with
  | VNull => Ok VNull
  | VNum q => if is_int32 q then Ok (VNum q) else Err TypeError
  | _ => Err TypeError
  end.

Definition astype_Int32 (vs : list value) : result (list value) :=
  map_result cast_Int32 vs.

(** Python's [str]; the missing value of an object column is [None] *)
Definition py_str (v : value) : string :=
  match v with
  | VNull => "None"
  | VNum q => str_num q
  | VStr s => s
  | VObj n => str_obj n
  end.

(** [.astype(str)]: every value, the missing one too, becomes a string *)
Definition astype_str (vs : list value) : list value := (λ v, VStr (py_str v)) <$> vs.

Definition to_Int32_column (col : string) (res : DataFrame) : result DataFrame :=
  vs ← column res col;
  vs ← astype_Int32 (to_numeric vs);
  Ok (set_column col vs res).

(** One round of the loop over [float_columns]. *)
Definition to_float_column (res : DataFrame) (col : string) : result DataFrame :=
  if has_column res col
  then vs ← column res col; Ok (set_column col (to_numeric vs) res)
  else Ok res.

Definition convert_to_parquet_format (res : DataFrame) : result DataFrame :=
  res ← fold_result to_float_column res float_columns;
  res ← to_Int32_column "unique" res;
  res ← (if has_column res "precursor_charge"
         then to_Int32_column "precursor_charge" res else Ok res);
  res ← (if has_column res "is_decoy"
         then to_Int32_column "is_decoy" res else Ok res);
  vs ← column res "scan";
  let res := set_column "scan" (astype_str vs) res in
  vs ← column res "scan_reference_file_name";
  let res := set_column "scan_reference_file_name" (astype_str vs) res in
  if has_column res "rt"
  then vs ← column res "rt"; Ok (set_column "rt" (to_numeric vs) res)
  else Ok (set_scalar "rt" VNull res).

(** *** [Feature.slice] *)

Definition py_repr (o : pyobj) : string :=
  match o with
  | PyList l => "[" ++ String.concat ", " ((λ c, "'" ++ c ++ "'") <$> l) ++ "]"
  | PyStr s => s
  | PyNone => "None"
  end.

(** [len(o)] *)
Definition len (o : pyobj) : result nat :=
  match o with
  | PyList l => Ok (length l)
  | PyStr s => Ok (String.length s)
  | PyNone => Err TypeError
  end.

Definition slice (df : DataFrame) (partitions : pyobj)
  : result (list (list value * DataFrame)) :=
  match partitions with
  | PyList l =>
      if bool_decide (length l = 0) then Err (Exception (py_repr partitions ++ " is empty"))
      else match list_find (λ partion, partion ∉ columns df) l with
           | Some (_, partion) => Err (Exception (partion ++ " does not exist"))
           | None => groupby df l
           end
  | _ => Err (Exception (py_repr partitions ++ " is not a list"))
  end.

Definition transform_feature (df : DataFrame) : result DataFrame := table_from_pandas df.

(** *** The generators

    A generator is modelled by the loop it drives: [consume] is the body
    of the caller's [for] statement, run at each [yield].  When the body
    or the generator raises, nothing after the raising statement runs. *)

Definition transform_msstats_in (msstats_in : list DataFrame)
    (consume : DataFrame → io unit) : io unit :=
  _ ← MsstatsIN;
  _ ← for_each msstats_in (λ msstats, _ ← emit BatchGenerated; consume msstats);
  destroy_duckdb_database.

(** The body of the loop of [generate_feature_report]: the batch it yields
    for one quantification batch. *)
Definition feature_report_batch (map_dict pep_dict : pydict) (msstats : DataFrame)
  : result DataFrame :=
  msstats ← merge_msstats_and_psm msstats map_dict;
  msstats ← add_additional_msg msstats pep_dict;
  convert_to_parquet_format msstats.

Definition generate_feature_report (psm : Psm) (msstats_in : list DataFrame)
    (consume : DataFrame → io unit) : io unit :=
  dicts ← lift (extract_psm_msg psm);
  _ ← emit PsmExtracted;
  transform_msstats_in msstats_in (λ msstats,
    msstats ← lift (feature_report_batch dicts.1 dicts.2 msstats);
    _ ← emit BatchReported;
    consume msstats).

Definition generate_slice_feature (partitions : pyobj) (psm : Psm)
    (msstats_in : list DataFrame)
    (consume : list value → DataFrame → io unit) : io unit :=
  generate_feature_report psm msstats_in (λ msstats,
    groups ← lift (slice msstats partitions);
    for_each groups (λ g,
      feature ← lift (transform_feature g.2);
      _ ← emit (SliceYielded g.1);
      consume g.1 feature)).

Definition write_features_to_file (partitions : pyobj) (psm : Psm)
    (msstats_in : list DataFrame) : io unit :=
  _ ← set_pqwriters ∅;
  _ ← lift (extract_psm_msg psm);
  _ ← emit PsmExtracted;
  _ ← lift (len partitions);
  _ ← generate_slice_feature partitions psm msstats_in
        (λ key feature, save_slice_file feature key);
  close_file.

(** [df[c] = g(row)], the column computed row by row *)
Definition assign (c : string) (g : row → value) (df : DataFrame) : DataFrame :=
  {| columns := add_label c (columns df);
     rows := (λ r, <[c := g r]> r) <$> rows df |}.

(** A row of the merged batch: the seven fields set from the index. *)
Definition merged_row (map_dict : pydict) (r : row) : row :=
  <["cv_params" := looked_up map_dict r 6]>
  (<["additional_scores" := looked_up map_dict r 5]>
  (<["is_decoy" := looked_up map_dict r 4]>
  (<["mp_accessions" := looked_up map_dict r 3]>
  (<["observed_mz" := looked_up map_dict r 2]>
  (<["calculated_mz" := looked_up map_dict r 1]>
  (<["posterior_error_probability" := looked_up map_dict r 0]> r)))))).

(** *** The effect of [convert_to_parquet_format] on one row *)

Definition coerce_cell (c : string) (r : row) : row :=
  <[c := coerce_numeric (cell r c)]> r.

Definition coerce_if (cols : list string) (c : string) (r : row) : row :=
  if bool_decide (c ∈ cols) then coerce_cell c r else r.

Definition str_cell (c : string) (r : row) : row :=
  <[c := VStr (py_str (cell r c))]> r.

(** The row [convert_to_parquet_format] makes of a row of a frame whose
    columns are [cols], when it returns. *)
Definition convert_row (cols : list string) (r : row) : row :=
  let r := foldl (λ r c, coerce_if cols c r) r float_columns in
  let r := coerce_cell "unique" r in
  let r := coerce_if cols "precursor_charge" r in
  let r := coerce_if cols "is_decoy" r in
  let r := str_cell "scan" r in
  let r := str_cell "scan_reference_file_name" r in
  if bool_decide ("rt" ∈ cols) then coerce_cell "rt" r else <["rt" := VNull]> r.

Definition int32_columns : list string := ["unique"; "precursor_charge"; "is_decoy"].

(** The numeric columns the claims name. *)
Definition numeric_columns : list string :=
  float_columns ++ int32_columns ++ ["rt"].

(** A cell [.astype("Int32")] accepts once [pd.to_numeric] has coerced it: a
    missing or unparsable value, or a 32-bit integer. *)
Definition castable (v : value) : Prop :=
  cast_Int32 (coerce_numeric v) = Ok (coerce_numeric v).

Definition int32_ok (res : DataFrame) : Prop :=
  ∀ r c, r ∈ rows res → c ∈ int32_columns → c ∈ columns res → castable (cell r c).

(** A value [pd.to_numeric] cannot read as a number. *)
Definition unparsable (v : value) : Prop :=
  match v with
  | VStr s => parse_numeric s = None
  | VObj _ => True
  | _ => False
  end.

(** The columns [convert_to_parquet_format] may write. *)
Definition converted_columns : list string :=
  numeric_columns ++ ["scan"; "scan_reference_file_name"].

(** What [generate_best_scan] returns for a row and entries of three fields. *)
Definition best_scan (pep_dict : pydict) (r : row) : value * value :=
  match pep_dict !! [cell r "peptidoform"; cell r "precursor_charge"] with
  | Some t => (default VNull (t !! 1), default VNull (t !! 2))
  | None => (VNull, VNull)
  end.

(** The effect of each statement of [add_additional_msg] on one row. *)
Definition qvalue_row (r : row) : row :=
  <["pg_global_qvalue" :=
     default VNull (protein_global_qvalue_map !! cell r "mp_accessions")]> r.

Definition scan_row (pep_dict : pydict) (r : row) : row :=
  <["scan" := (best_scan pep_dict r).2]>
    (<["scan_reference_file_name" := (best_scan pep_dict r).1]> r).

Definition modifications_row (r : row) : row :=
  <["modifications" := (generate_modifications_details (cell r "peptidoform")).2]>
    (<["peptidoform" := (generate_modifications_details (cell r "peptidoform")).1]> r).

Definition accession_row (r : row) : row :=
  <["mp_accessions" := get_protein_accession (cell r "mp_accessions")]> r.

Definition placeholders_row (r : row) : row :=
  foldl (λ r c, <[c := VNull]> r) r placeholder_columns.

Definition annotated_row (pep_dict : pydict) (r : row) : row :=
  placeholders_row
    (accession_row (modifications_row (scan_row pep_dict (qvalue_row r)))).

(** *** Best-match selection *)


(** The 7-tuple [extract_psm_msg] stores for a row. *)
Definition msg (r : row) : list value := cell r <$> map_features.










(** *** Specifications of effectful computations *)

(** From a world that satisfies [P], the computation [m] either returns [a]
    in a world that satisfies [Q a], or raises in a world that satisfies [E]. *)
Definition hoare {A} (P : world → Prop) (m : io A)
    (Q : A → world → Prop) (E : world → Prop) : Prop :=
  ∀ w, P w → match m w with
             | (w', Ok a) => Q a w'
             | (w', Err _) => E w'
             end.

(** No sink of the world has been closed. *)
Definition sinks_open (w : world) : Prop :=
  map_Forall (λ _ s, closes s = 0) (pqwriters w).

(** Every sink of the world has been closed exactly once. *)
Definition sinks_closed_once (w : world) : Prop :=
  map_Forall (λ _ s, closes s = 1) (pqwriters w).

(** The database is in the state [db] and no sink has been closed. *)
Definition running (db : db_state) (w : world) : Prop :=
  duckdb w = db ∧ sinks_open w.


(** *** Example inputs *)

Definition num (z : Z) : value := VNum (Q2Qc (inject_Z z)).
Definition frac (a : Z) (b : positive) : value := VNum (Q2Qc (a # b)).
Definition mkrow (l : list (string * value)) : row := list_to_map l.

(** A parser of unsigned decimal integers, standing for the numeric parsers. *)
Fixpoint parse_digits (s : string) (acc : Z) : option Z :=
  match s with
  | EmptyString => Some acc
  | String c s' =>
      let d := (Z.of_nat (Ascii.nat_of_ascii c) - 48)%Z in
      if bool_decide (0 ≤ d ≤ 9)%Z then parse_digits s' (10 * acc + d)%Z else None
  end.

Definition parse_decimal (s : string) : option Qc :=
  if bool_decide (s = "") then None
  else (λ z, Q2Qc (inject_Z z)) <$> parse_digits s 0.

Definition psm_row (file peptidoform : string) (charge : Z) (p : value) (mz : Z) : row :=
  mkrow [("reference_file_name", VStr file); ("peptidoform", VStr peptidoform);
         ("precursor_charge", num charge); ("posterior_error_probability", p);
         ("calculated_mz", num mz); ("observed_mz", num (mz + 1));
         ("mp_accessions", VStr "P12345"); ("is_decoy", num 0);
         ("additional_scores", VObj 1); ("cv_params", VObj 2)].

(** Two chunks of a PSM table.  The key (fileA, PEP(ox)TIDE, 2) has the
    probabilities 0.03 and 0.01 in the first chunk and 0.01 again in the
    second; the key (fileB, PEPTIDE, 3) has 0.2 and then 0.1. *)
Definition psm_chunk_1 : DataFrame :=
  {| columns := psm_columns ++ map_features;
     rows := [psm_row "fileA" "PEP(ox)TIDE" 2 (frac 3 100) 401;
              psm_row "fileA" "PEP(ox)TIDE" 2 (frac 1 100) 402;
              psm_row "fileB" "PEPTIDE" 3 (frac 2 10) 500] |}.

Definition psm_chunk_2 : DataFrame :=
  {| columns := psm_columns ++ map_features;
     rows := [psm_row "fileA" "PEP(ox)TIDE" 2 (frac 1 100) 403;
              psm_row "fileB" "PEPTIDE" 3 (frac 1 10) 501] |}.

Definition example_psm : Psm :=
  {| iter_psm_table := [psm_chunk_1; psm_chunk_2];
     extract_from_pep :=
       {[ [VStr "PEP(ox)TIDE"; num 2] := [frac 1 100; VStr "fileA"; VStr "17"] ]} |}.

Definition quant_row (file peptidoform : string) (charge : Z) (unique : value) : row :=
  mkrow [("reference_file_name", VStr file); ("peptidoform", VStr peptidoform);
         ("precursor_charge", num charge); ("unique", unique);
         ("intensity", num 1000)].

Definition quant_columns : list string :=
  ["reference_file_name"; "peptidoform"; "precursor_charge"; "unique"; "intensity"].

(** A quantification batch: a row that matches a PSM key, and a row of
    file B whose peptidoform no PSM has and whose [unique] is unparsable. *)
Definition example_msstats : DataFrame :=
  {| columns := quant_columns;
     rows := [quant_row "fileA" "PEP(ox)TIDE" 2 (num 1);
              quant_row "fileB" "UNSEEN" 2 (VStr "n/a")] |}.

(** A batch that lacks the column [unique]. *)
Definition example_msstats_no_unique : DataFrame :=
  {| columns := ["reference_file_name"; "peptidoform"; "precursor_charge"; "intensity"];
     rows := [mkrow [("reference_file_name", VStr "fileA"); ("peptidoform", VStr "PEPTIDE");
                     ("precursor_charge", num 3); ("intensity", num 7)]] |}.

(** A batch one row of which has no reference file. *)
Definition example_null_partition : DataFrame :=
  {| columns := quant_columns;
     rows := [quant_row "fileA" "PEPTIDE" 2 (num 1);
              <["reference_file_name" := VNull]> (quant_row "fileA" "PEPTIDE" 3 (num 1))] |}.

(** An annotated batch with unparsable values in numeric columns. *)
Definition example_unparsable : DataFrame :=
  {| columns := ["unique"; "scan"; "scan_reference_file_name"; "calculated_mz";
                 "precursor_charge"];
     rows := [mkrow [("unique", VStr "yes"); ("scan", VStr "17");
                     ("scan_reference_file_name", VStr "fileA");
                     ("calculated_mz", VStr "n/a"); ("precursor_charge", VStr "2")];
              mkrow [("unique", num 1); ("scan", VStr "18");
                     ("scan_reference_file_name", VStr "fileA");
                     ("calculated_mz", VStr "401"); ("precursor_charge", VObj 0)]] |}.

(** The index [extract_psm_msg] builds from [example_psm]. *)
Definition example_map_dict : pydict :=
  {[ [VStr "fileA"; VStr "PEP(ox)TIDE"; num 2]
       := msg (psm_row "fileA" "PEP(ox)TIDE" 2 (frac 1 100) 402);
     [VStr "fileB"; VStr "PEPTIDE"; num 3]
       := msg (psm_row "fileB" "PEPTIDE" 3 (frac 1 10) 501) ]}.

(** Stand-ins for what the pipeline takes from outside this module: an
    order of the group keys, the renderings of [str], and the annotation
    helpers of the [MzTab] base class. *)
Definition example_sort (ks : list (list value)) : list (list value) := ks.

Definition example_str_num (q : Qc) : string :=
  if bool_decide (Qden q = 1%positive) then pretty (Qnum q)
  else pretty (Qnum q) ++ "/" ++ pretty (Zpos (Qden q)).

Definition example_str_obj (n : nat) : string := "<object>".

Definition example_qvalue_map : gmap value value := {[ VStr "P12345" := frac 1 1000 ]}.

Definition example_modifications (v : value) : value * value := (v, VObj 3).

Definition example_accession (v : value) : value := v.

Definition example_table (df : DataFrame) : result DataFrame := Ok df.

(** *** Decidable equality of results *)

Global Instance error_eq_dec : EqDecision error.
Proof. solve_decision. Defined.

Global Instance result_eq_dec {A} `{EqDecision A} : EqDecision (result A).
Proof. solve_decision. Defined.

Global Instance DataFrame_eq_dec : EqDecision DataFrame.
Proof. solve_decision. Defined.

(** The value a computation returned, or [d] when it raised. *)
Definition returned {A} (d : A) (r : result A) : A :=
  match r with Ok a => a | Err _ => d end.

Definition is_ok {A} (r : result A) : bool :=
  match r with Ok _ => true | Err _ => false end.

Definition no_frame : DataFrame := {| columns := []; rows := [] |}.

Definition no_writer : writer := {| written := []; closes := 0 |}.

(** The cell [convert_row] leaves under the label [c]. *)
Definition converted_cell (cols : list string) (r : row) (c : string) : option value :=
  if bool_decide (c ∈ ["scan"; "scan_reference_file_name"])
  then Some (VStr (py_str (cell r c)))
  else if bool_decide (c = "rt")
  then Some (if bool_decide ("rt" ∈ cols) then coerce_numeric (cell r c) else VNull)
  else if bool_decide (c = "unique") then Some (coerce_numeric (cell r c))
  else if bool_decide (c ∈ (float_columns ++ ["precursor_charge"; "is_decoy"])%list)
          && bool_decide (c ∈ cols)
  then Some (coerce_numeric (cell r c))
  else r !! c.

(** The columns [add_additional_msg] computes, besides the placeholders. *)
Definition annotation_columns : list string :=
  ["pg_global_qvalue"; "scan_reference_file_name"; "scan"; "peptidoform";
   "modifications"; "mp_accessions"].


(** *** [Feature.generate_feature] and [Feature.write_feature_to_file] *)

Definition generate_feature (psm : Psm) (msstats_in : list DataFrame)
    (consume : DataFrame → io unit) : io unit :=
  generate_feature_report psm msstats_in (λ msstats,
    feature ← lift (transform_feature msstats);
    consume feature).

(** The sink of an unpartitioned run is the one file at [output_path]; it is
    kept in the table of sinks under the empty key.  The local variable
    [pqwriter] is [None] as long as the table has no sink under that key. *)
Definition output_path : list value := [].

Definition pqwriter : io (option writer) := λ w, (w, Ok (pqwriters w !! output_path)).

(** [pq.ParquetWriter(output_path, schema)]: a new file with nothing in it *)
Definition ParquetWriter : io unit := λ w,
  ({| trace := trace w; duckdb := duckdb w;
      pqwriters := <[output_path := {| written := []; closes := 0 |}]> (pqwriters w) |},
   Ok tt).

(** [pqwriter.write_table(feature)] *)
Definition write_table (feature : DataFrame) : io unit := λ w,
  ({| trace := trace w; duckdb := duckdb w;
      pqwriters := alter (λ s, {| written := (written s ++ [feature])%list;
                                  closes := closes s |}) output_path (pqwriters w) |},
   Ok tt).

Definition write_feature_to_file (psm : Psm) (msstats_in : list DataFrame) : io unit :=
  _ ← set_pqwriters ∅;
  _ ← lift (extract_psm_msg psm);
  _ ← emit PsmExtracted;
  _ ← generate_feature psm msstats_in (λ feature,
        opened ← pqwriter;
        _ ← (if opened is Some _ then mret tt else ParquetWriter);
        write_table feature);
  opened ← pqwriter;
  if opened is Some _ then close_file else mret tt.

(** The table [generate_feature] yields for one quantification batch. *)
Definition feature_table (map_dict pep_dict : pydict) (msstats : DataFrame)
  : result DataFrame :=
  msstats ← feature_report_batch map_dict pep_dict msstats;
  transform_feature msstats.

(** The table of sinks of an unpartitioned run that has written [tables]
    and closed its file [n] times: no sink at all before the first table. *)
Definition sink_of (tables : list DataFrame) (n : nat) : gmap (list value) writer :=
  match tables with
  | [] => ∅
  | _ => {[ output_path := {| written := tables; closes := n |} ]}
  end.

(** The events of the batches of a run that reports [n] of them. *)
Definition batch_events (n : nat) : list event :=
  concat (replicate n [BatchGenerated; BatchReported]).

(** The body of the loop of [write_feature_to_file], from the generation of
    a quantification batch to the write of its table. *)
Definition write_feature_batch (map_dict pep_dict : pydict) (msstats : DataFrame)
  : io unit :=
  _ ← emit BatchGenerated;
  msstats ← lift (feature_report_batch map_dict pep_dict msstats);
  _ ← emit BatchReported;
  feature ← lift (transform_feature msstats);
  opened ← pqwriter;
  _ ← (if opened is Some _ then mret tt else ParquetWriter);
  write_table feature.

(** *** What the partitioned writer writes *)

(** The keyed tables [generate_slice_feature] yields for one quantification
    batch. *)
Definition slice_tables (map_dict pep_dict : pydict) (partitions : pyobj)
    (msstats : DataFrame) : result (list (list value * DataFrame)) :=
  msstats ← feature_report_batch map_dict pep_dict msstats;
  groups ← slice msstats partitions;
  map_result (λ g, feature ← transform_feature g.2; Ok (g.1, feature)) groups.

(** The tables of the key [k] among keyed tables, in their order. *)
Definition tables_of (k : list value) (slices : list (list value * DataFrame))
  : list DataFrame :=
  (filter (λ kt, kt.1 = k) slices).*2.

(** The table of sinks once a keyed table has been saved. *)
Definition save_table (m : gmap (list value) writer) (kt : list value * DataFrame)
  : gmap (list value) writer :=
  let sink := default {| written := []; closes := 0 |} (m !! kt.1) in
  <[kt.1 := {| written := (written sink ++ [kt.2])%list; closes := closes sink |}]> m.

(** The body of the loop of [generate_slice_feature] under
    [write_features_to_file]: one group of one batch. *)
Definition write_slice (g : list value * DataFrame) : io unit :=
  feature ← lift (transform_feature g.2);
  _ ← emit (SliceYielded g.1);
  save_slice_file feature g.1.

(** One quantification batch, from its generation to the write of its
    slices. *)
Definition write_slices_batch (map_dict pep_dict : pydict) (partitions : pyobj)
    (msstats : DataFrame) : io unit :=
  _ ← emit BatchGenerated;
  msstats ← lift (feature_report_batch map_dict pep_dict msstats);
  _ ← emit BatchReported;
  groups ← lift (slice msstats partitions);
  for_each groups write_slice.

(** *** Example inputs of the further results *)


(** A batch whose second row has the charge 5/2. *)
Definition example_fractional_charge : DataFrame :=
  {| columns := quant_columns;
     rows := [quant_row "fileA" "PEPTIDE" 2 (num 1);
              <["precursor_charge" := frac 5 2]> (quant_row "fileA" "PEPTIDE" 3 (num 1))] |}.

(** A merged batch of one row, with the accession and the peptidoform as
    the mzTab file spells them. *)
Definition example_merged : DataFrame :=
  {| columns := ["mp_accessions"; "peptidoform"; "precursor_charge"; "intensity"];
     rows := [mkrow [("mp_accessions", VStr "sp|P12345|ALBU_HUMAN");
                     ("peptidoform", VStr "PEP(ox)TIDE");
                     ("precursor_charge", num 2); ("intensity", num 7)]] |}.

(** Stand-ins that rewrite what they are given: a q-value known under the
    long accession only, a peptidoform stripped of its modification and an
    accession cut to its identifier. *)
Definition example_long_qvalue_map : gmap value value :=
  {[ VStr "sp|P12345|ALBU_HUMAN" := frac 1 1000 ]}.

Definition example_strip_modifications (v : value) : value * value :=
  (VStr "PEPTIDE", VObj 3).

Definition example_short_accession (v : value) : value := VStr "P12345".


(** A PSM table without the column of the probabilities. *)
Definition example_psm_no_probability : Psm :=
  {| iter_psm_table :=
       [{| columns := psm_columns;
           rows := [mkrow [("reference_file_name", VStr "fileA");
                           ("peptidoform", VStr "PEPTIDE"); ("precursor_charge", num 2)]] |}];
     extract_from_pep := ∅ |}.

(** ** Results *)

Local Open Scope list_scope.

(** Propositional solvers take the parameters of the section for
    implications; this clears those a goal does not mention. *)
Ltac clear_functions :=
  try clear sort_keys_perm;
  repeat match goal with
         | H : ?T |- _ =>
             lazymatch type of T with
             | Prop => fail
             | _ => lazymatch T with (_ → _) => clear H end
             end
         end.

(** *** The error monad *)

Lemma map_result_Ok {A B} (f : A → result B) l l' :
  map_result f l = Ok l' ↔ Forall2 (λ a b, f a = Ok b) l l'.
Proof.
  revert l'. induction l as [|a l IH]; intros l'; simpl.
  - split; [intros [= <-]; constructor | by inversion 1].
  - split.
    + destruct (f a) as [b|e] eqn:Hb; simpl; [|done].
      destruct (map_result f l) as [bs|e] eqn:Hbs; simpl; [|done].
      intros [= <-]. constructor; [done|]. by apply IH.
    + inversion 1 as [|? b ? bs Hb Hbs]; subst. rewrite Hb. simpl.
      apply IH in Hbs. by rewrite Hbs.
Qed.

Lemma map_result_pure {A B} (g : A → B) (f : A → result B) l :
  (∀ a, a ∈ l → f a = Ok (g a)) → map_result f l = Ok (g <$> l).
Proof.
  induction l as [|a l IH]; intros Hf; simpl; [done|].
  rewrite Hf by left. simpl. rewrite IH; [done|].
  intros b Hb. apply Hf. by right.
Qed.

Lemma map_result_length {A B} (f : A → result B) l l' :
  map_result f l = Ok l' → length l' = length l.
Proof. rewrite map_result_Ok. intros H. symmetry. by eapply Forall2_length. Qed.

Lemma bind_Ok {A B} (x : result A) (f : A → result B) b :
  x ≫= f = Ok b ↔ ∃ a, x = Ok a ∧ f a = Ok b.
Proof.
  destruct x as [a|e]; simpl.
  - split; [eauto | by intros (? & [= <-] & ?)].
  - split; [done | by intros (? & ? & ?)].
Qed.

(** *** Frames *)

Lemma elem_of_add_label c c' cols :
  c' ∈ add_label c cols ↔ c' = c ∨ c' ∈ cols.
Proof.
  unfold add_label. case_bool_decide as Hc.
  - split; [by right | by intros [->|?]].
  - rewrite elem_of_app, list_elem_of_singleton. clear_functions; naive_solver.
Qed.

Lemma column_Ok df c :
  c ∈ columns df → column df c = Ok ((λ r, cell r c) <$> rows df).
Proof. intros Hc. unfold column, has_column. by rewrite bool_decide_eq_true_2. Qed.

Lemma column_Err df c :
  c ∉ columns df → column df c = Err (KeyError c).
Proof. intros Hc. unfold column, has_column. by rewrite bool_decide_eq_false_2. Qed.

Lemma zip_with_self_fmap {A B C} (f : A → B → C) (g : A → B) (l : list A) :
  zip_with f l (g <$> l) = (λ a, f a (g a)) <$> l.
Proof. induction l as [|a l IH]; simpl; [done|]. by f_equal. Qed.

(** A column computed row by row and stored under [c]. *)
Lemma rows_set_column_fmap c (g : row → value) df :
  rows (set_column c (g <$> rows df) df) = (λ r, <[c := g r]> r) <$> rows df.
Proof. unfold set_column; simpl. apply zip_with_self_fmap. Qed.

Lemma rows_set_scalar c v df :
  rows (set_scalar c v df) = (λ r, <[c := v]> r) <$> rows df.
Proof.
  unfold set_scalar, set_column; simpl.
  induction (rows df) as [|r l IH]; simpl; [done|]. by f_equal.
Qed.

Lemma cell_insert_eq c v (r : row) : cell (<[c := v]> r) c = v.
Proof. unfold cell. by rewrite lookup_insert_eq. Qed.

Lemma cell_insert_ne c c' v (r : row) : c ≠ c' → cell (<[c := v]> r) c' = cell r c'.
Proof. intros Hc. unfold cell. by rewrite lookup_insert_ne. Qed.

Lemma select_columns_Ok df cs :
  cs ⊆ columns df →
  select_columns df cs
  = Ok {| columns := cs; rows := (λ r, filter (λ kv, kv.1 ∈ cs) r) <$> rows df |}.
Proof.
  intros Hcs. unfold select_columns.
  destruct (list_find _ cs) as [[i c]|] eqn:Hfind; [|done].
  apply list_find_Some in Hfind as (Hi & Hc & _).
  destruct Hc. apply Hcs. by eapply list_elem_of_lookup_2.
Qed.

Lemma cell_select (cs : list string) (r : row) c :
  c ∈ cs → cell (filter (λ kv, kv.1 ∈ cs) r) c = cell r c.
Proof.
  intros Hc. unfold cell. destruct (r !! c) as [v|] eqn:Hr.
  - erewrite (map_lookup_filter_Some_2 _ r c v); done.
  - by rewrite map_lookup_filter_None_2 by (left; done).
Qed.

(** *** The lookup join *)

Lemma looked_up_insert map_dict c v (r : row) i :
  c ∉ psm_columns → looked_up map_dict (<[c := v]> r) i = looked_up map_dict r i.
Proof.
  intros Hc. unfold looked_up, key_of, psm_columns in *. simpl.
  rewrite !cell_insert_ne; [done|..]; intros ->; apply Hc; (clear_functions; set_solver).
Qed.

Lemma merge_psm_looked_up map_dict (r : row) i :
  (∀ k t, map_dict !! k = Some t → length t = 7) → i < 7 →
  merge_psm map_dict (filter (λ kv, kv.1 ∈ psm_columns) r) i = Ok (looked_up map_dict r i).
Proof.
  intros Hwf Hi. unfold merge_psm, looked_up, key_of, psm_columns. simpl.
  rewrite !cell_select by (clear_functions; set_solver).
  destruct (map_dict !! _) as [t|] eqn:Ht; [|done].
  apply Hwf in Ht. unfold list_get.
  destruct (lookup_lt_is_Some_2 t i) as [v ->]; [lia|done].
Qed.

Ltac solve_elem := by repeat constructor.
Ltac solve_not_elem :=
  let H := fresh in
  intros H; repeat (apply elem_of_cons in H as [H|H]; [discriminate H|]);
  by apply elem_of_nil in H.
Lemma set_column_fmap c (g : row → value) df :
  set_column c (g <$> rows df) df = assign c g df.
Proof. unfold set_column, assign. f_equal. apply zip_with_self_fmap. Qed.

Lemma columns_assign_subseteq cs c g df :
  cs ⊆ columns df → cs ⊆ columns (assign c g df).
Proof. intros H x Hx. simpl. apply elem_of_add_label. right. by apply H. Qed.

Lemma columns_assign_elem c g df : c ∈ columns (assign c g df).
Proof. simpl. apply elem_of_add_label. by left. Qed.

Lemma map_result_fmap_pure {A A' B} (h : A → A') (g : A → B) (f : A' → result B) l :
  (∀ a, a ∈ l → f (h a) = Ok (g a)) → map_result f (h <$> l) = Ok (g <$> l).
Proof.
  induction l as [|a l IH]; intros Hf; [done|].
  rewrite !fmap_cons. cbn [map_result]. rewrite Hf by left.
  cbn [mbind result_bind]. rewrite IH; [done|].
  intros b Hb. apply Hf. by right.
Qed.

Lemma merge_feature_Ok map_dict msstats i feature :
  psm_columns ⊆ columns msstats →
  (∀ k t, map_dict !! k = Some t → length t = 7) → i < 7 →
  merge_feature map_dict msstats i feature
  = Ok (assign feature (λ r, looked_up map_dict r i) msstats).
Proof.
  intros Hcols Hwf Hi. unfold merge_feature.
  rewrite select_columns_Ok by done. cbn [mbind result_bind rows].
  rewrite (map_result_fmap_pure _ (λ r, looked_up map_dict r i)).
  - cbn [mbind result_bind]. by rewrite set_column_fmap.
  - intros r _. by apply merge_psm_looked_up.
Qed.

Lemma elem_of_columns_assign c' c g df :
  c' ∈ columns (assign c g df) ↔ c' = c ∨ c' ∈ columns df.
Proof. apply elem_of_add_label. Qed.

Lemma rows_assign c g df : rows (assign c g df) = (λ r, <[c := g r]> r) <$> rows df.
Proof. done. Qed.

Lemma merge_msstats_and_psm_rows msstats map_dict :
  psm_columns ⊆ columns msstats →
  (∀ k t, map_dict !! k = Some t → length t = 7) →
  ∃ out, merge_msstats_and_psm msstats map_dict = Ok out
    ∧ (∀ c, c ∈ columns out ↔ c ∈ map_features ∨ c ∈ columns msstats)
    ∧ rows out = merged_row map_dict <$> rows msstats.
Proof.
  intros Hcols Hwf. unfold merge_msstats_and_psm.
  cbn [imap map_features fold_result fst snd compose].
  repeat (rewrite merge_feature_Ok;
          [cbn [mbind result_bind] | repeat apply columns_assign_subseteq; done | done | lia ]).
  eexists; split; [done|]. split.
  - intros c. rewrite !elem_of_columns_assign. unfold map_features.
    rewrite !elem_of_cons, elem_of_nil. clear_functions; naive_solver.
  - rewrite !rows_assign, <- !list_fmap_compose. apply list_fmap_ext.
    intros _ r _. unfold compose, merged_row.
    rewrite !looked_up_insert; [done|..]; solve_not_elem.
Qed.

(** C2: [merge_msstats_and_psm] is a lookup join.  On a quantification
    batch that has the three key columns and an index of 7-tuples it
    returns a batch with the same number of rows; the row at each position
    keeps every field but the seven PSM fields; these are all null when the
    row's key is absent from the index, and are the key's stored tuple when
    it is present (so rows that share a key get the same tuple). *)
Theorem merge_msstats_and_psm_lookup_join (msstats : DataFrame) (map_dict : pydict) :
  psm_columns ⊆ columns msstats →
  (∀ k t, map_dict !! k = Some t → length t = 7) →
  ∃ out, merge_msstats_and_psm msstats map_dict = Ok out
    ∧ length (rows out) = length (rows msstats)
    ∧ ∀ n r, rows msstats !! n = Some r →
        ∃ r', rows out !! n = Some r'
          ∧ (∀ c, c ∉ map_features → r' !! c = r !! c)
          ∧ match map_dict !! key_of psm_columns r with
            | None => cell r' <$> map_features = replicate 7 VNull
            | Some t => cell r' <$> map_features = t
            end.
Proof.
  intros Hcols Hwf.
  destruct (merge_msstats_and_psm_rows msstats map_dict Hcols Hwf) as (out & Hout & _ & Hrows).
  exists out. split; [done|]. rewrite Hrows. split; [by rewrite length_fmap|].
  intros n r Hr. exists (merged_row map_dict r). split; [by rewrite list_lookup_fmap, Hr|].
  split.
  - intros c Hc. unfold merged_row.
    rewrite !lookup_insert_ne; [done|..]; intros <-; apply Hc; solve_elem.
  - unfold merged_row, map_features. cbn [fmap list_fmap].
    repeat (rewrite ?cell_insert_eq; rewrite ?cell_insert_ne by done).
    rewrite ?cell_insert_eq.
    unfold looked_up. destruct (map_dict !! _) as [t|] eqn:Ht; [|done].
    apply Hwf in Ht. do 8 (destruct t as [|? t]; try done).
Qed.

(** *** Type coercion *)

Lemma cast_Int32_Ok v v' : cast_Int32 v = Ok v' → v' = v.
Proof. destruct v as [|q| |]; simpl; try done; [congruence|]. destruct (is_int32 q); congruence. Qed.

Lemma astype_Int32_Ok vs vs' :
  astype_Int32 vs = Ok vs' → vs' = vs ∧ Forall (λ v, cast_Int32 v = Ok v) vs.
Proof.
  unfold astype_Int32. rewrite map_result_Ok. induction 1 as [|v v' l l' Hv _ [-> IH]].
  - done.
  - apply cast_Int32_Ok in Hv as Hv'. subst v'. split; [done|]. by constructor.
Qed.

Lemma astype_Int32_intro vs :
  Forall (λ v, cast_Int32 v = Ok v) vs → astype_Int32 vs = Ok vs.
Proof.
  intros H. unfold astype_Int32. rewrite <- (list_fmap_id vs) at 2.
  apply map_result_pure. intros v Hv. by eapply Forall_forall in H.
Qed.

Lemma has_column_true df c : c ∈ columns df → has_column df c = true.
Proof. intros. unfold has_column. by apply bool_decide_eq_true_2. Qed.

Lemma has_column_false df c : c ∉ columns df → has_column df c = false.
Proof. intros. unfold has_column. by apply bool_decide_eq_false_2. Qed.

Lemma add_label_elem c cols : c ∈ cols → add_label c cols = cols.
Proof. intros. unfold add_label. by rewrite bool_decide_eq_true_2. Qed.

Lemma assign_existing c g df :
  c ∈ columns df →
  assign c g df = {| columns := columns df; rows := (λ r, <[c := g r]> r) <$> rows df |}.
Proof. intros. unfold assign. by rewrite add_label_elem. Qed.

Lemma to_numeric_column c df :
  to_numeric ((λ r, cell r c) <$> rows df) = (λ r, coerce_numeric (cell r c)) <$> rows df.
Proof. unfold to_numeric. by rewrite <- list_fmap_compose. Qed.

Lemma to_Int32_column_intro c df :
  c ∈ columns df → Forall (λ r, castable (cell r c)) (rows df) →
  to_Int32_column c df = Ok {| columns := columns df; rows := coerce_cell c <$> rows df |}.
Proof.
  intros Hc Hall. unfold to_Int32_column. rewrite column_Ok by done.
  cbn [mbind result_bind]. rewrite to_numeric_column, astype_Int32_intro.
  - cbn [mbind result_bind]. by rewrite set_column_fmap, assign_existing.
  - apply Forall_fmap. eapply Forall_impl; [exact Hall|]. by intros r Hr.
Qed.

Lemma to_Int32_column_inv c df out :
  to_Int32_column c df = Ok out →
  c ∈ columns df ∧ out = {| columns := columns df; rows := coerce_cell c <$> rows df |}.
Proof.
  unfold to_Int32_column. destruct (decide (c ∈ columns df)) as [Hc|Hc].
  - rewrite column_Ok by done. cbn [mbind result_bind]. rewrite to_numeric_column.
    destruct (astype_Int32 _) as [vs|e] eqn:Hvs; [|done]. cbn [mbind result_bind].
    apply astype_Int32_Ok in Hvs as [-> _]. intros [= <-]. split; [done|].
    by rewrite set_column_fmap, assign_existing.
  - by rewrite column_Err.
Qed.


Lemma to_float_column_Ok res col :
  to_float_column res col
  = Ok {| columns := columns res; rows := coerce_if (columns res) col <$> rows res |}.
Proof.
  unfold to_float_column, coerce_if. destruct (decide (col ∈ columns res)) as [Hc|Hc].
  - rewrite has_column_true, column_Ok by done. cbn [mbind result_bind].
    rewrite to_numeric_column, set_column_fmap, assign_existing by done.
    rewrite bool_decide_eq_true_2 by done. done.
  - rewrite has_column_false by done. rewrite bool_decide_eq_false_2 by done.
    rewrite list_fmap_id. by destruct res.
Qed.

Lemma float_fold_Ok cs res :
  fold_result to_float_column res cs
  = Ok {| columns := columns res;
          rows := (λ r, foldl (λ r c, coerce_if (columns res) c r) r cs) <$> rows res |}.
Proof.
  revert res. induction cs as [|c cs IH]; intros res; cbn [fold_result foldl].
  - rewrite list_fmap_id. by destruct res.
  - rewrite to_float_column_Ok. cbn [mbind result_bind]. rewrite IH. cbn [columns rows].
    by rewrite <- list_fmap_compose.
Qed.

Lemma guarded_Int32_inv c df out :
  (if has_column df c then to_Int32_column c df else Ok df) = Ok out →
  out = {| columns := columns df; rows := coerce_if (columns df) c <$> rows df |}.
Proof.
  unfold has_column, coerce_if. case_bool_decide as Hc.
  - by intros [_ ->]%to_Int32_column_inv.
  - intros [= <-]. rewrite list_fmap_id. by destruct df.
Qed.

Lemma guarded_Int32_intro c df :
  (c ∈ columns df → Forall (λ r, castable (cell r c)) (rows df)) →
  (if has_column df c then to_Int32_column c df else Ok df)
  = Ok {| columns := columns df; rows := coerce_if (columns df) c <$> rows df |}.
Proof.
  intros Hall. unfold has_column, coerce_if. case_bool_decide as Hc.
  - by apply to_Int32_column_intro; [|apply Hall].
  - rewrite list_fmap_id. by destruct df.
Qed.

Lemma astype_str_column c df :
  c ∈ columns df →
  set_column c (astype_str ((λ r, cell r c) <$> rows df)) df
  = {| columns := columns df; rows := str_cell c <$> rows df |}.
Proof.
  intros Hc. unfold astype_str. rewrite <- list_fmap_compose.
  by rewrite set_column_fmap, assign_existing.
Qed.

Lemma rt_stage df :
  (if has_column df "rt"
   then vs ← column df "rt"; Ok (set_column "rt" (to_numeric vs) df)
   else Ok (set_scalar "rt" VNull df))
  = Ok {| columns := add_label "rt" (columns df);
          rows := (λ r, if bool_decide ("rt" ∈ columns df)
                        then coerce_cell "rt" r else <["rt" := VNull]> r) <$> rows df |}.
Proof.
  unfold has_column. case_bool_decide as Hc.
  - rewrite column_Ok by done. cbn [mbind result_bind].
    by rewrite to_numeric_column, set_column_fmap.
  - f_equal. unfold set_scalar, set_column. f_equal. apply rows_set_scalar.
Qed.

(** The three stages that may raise, in the order the source runs them. *)
Lemma convert_to_parquet_format_unfold res :
  convert_to_parquet_format res =
  (res1 ← to_Int32_column "unique"
            {| columns := columns res;
               rows := (λ r, foldl (λ r c, coerce_if (columns res) c r) r float_columns)
                         <$> rows res |};
   res2 ← (if has_column res1 "precursor_charge"
           then to_Int32_column "precursor_charge" res1 else Ok res1);
   res3 ← (if has_column res2 "is_decoy"
           then to_Int32_column "is_decoy" res2 else Ok res2);
   vs ← column res3 "scan";
   let res4 := set_column "scan" (astype_str vs) res3 in
   vs ← column res4 "scan_reference_file_name";
   let res5 := set_column "scan_reference_file_name" (astype_str vs) res4 in
   Ok {| columns := add_label "rt" (columns res5);
         rows := (λ r, if bool_decide ("rt" ∈ columns res5)
                       then coerce_cell "rt" r else <["rt" := VNull]> r) <$> rows res5 |}).
Proof.
  unfold convert_to_parquet_format. rewrite float_fold_Ok. cbn [mbind result_bind].
  destruct (to_Int32_column "unique" _) as [res1|]; [|done]. cbn [mbind result_bind].
  destruct (if has_column res1 _ then _ else _) as [res2|]; [|done]. cbn [mbind result_bind].
  destruct (if has_column res2 _ then _ else _) as [res3|]; [|done]. cbn [mbind result_bind].
  destruct (column res3 "scan") as [vs|]; [|done]. cbn [mbind result_bind].
  destruct (column _ "scan_reference_file_name") as [vs'|]; [|done]. cbn [mbind result_bind].
  apply rt_stage.
Qed.

Lemma convert_to_parquet_format_inv res out :
  convert_to_parquet_format res = Ok out →
  "unique" ∈ columns res ∧ "scan" ∈ columns res
  ∧ "scan_reference_file_name" ∈ columns res
  ∧ out = {| columns := add_label "rt" (columns res);
             rows := convert_row (columns res) <$> rows res |}.
Proof.
  rewrite convert_to_parquet_format_unfold.
  intros (res1 & [Hu ->]%to_Int32_column_inv & H)%bind_Ok. cbn [columns rows] in *.
  apply bind_Ok in H as (res2 & ->%guarded_Int32_inv & H). cbn [columns rows] in *.
  apply bind_Ok in H as (res3 & ->%guarded_Int32_inv & H). cbn [columns rows] in *.
  destruct (decide ("scan" ∈ columns res)) as [Hs|Hs];
    [|by rewrite column_Err in H].
  rewrite column_Ok in H by done. cbn [mbind result_bind] in H.
  rewrite astype_str_column in H by done. cbn zeta in H.
  destruct (decide ("scan_reference_file_name" ∈ columns res)) as [Hf|Hf];
    [|by rewrite column_Err in H].
  rewrite column_Ok in H by done. cbn [mbind result_bind] in H.
  rewrite astype_str_column in H by done. cbn [columns rows] in H.
  injection H as <-. repeat split; try done. f_equal.
  rewrite <- !list_fmap_compose. apply list_fmap_ext. intros _ r _. done.
Qed.

(** *** Cells of a converted row *)

Lemma lookup_coerce_if_ne cols c c' (r : row) :
  c ≠ c' → coerce_if cols c r !! c' = r !! c'.
Proof.
  intros Hc. unfold coerce_if, coerce_cell. case_bool_decide; [|done].
  by rewrite lookup_insert_ne.
Qed.

Lemma cell_coerce_if_ne cols c c' (r : row) :
  c ≠ c' → cell (coerce_if cols c r) c' = cell r c'.
Proof. intros Hc. unfold cell. by rewrite lookup_coerce_if_ne. Qed.

Lemma cell_coerce_if_eq cols c (r : row) :
  c ∈ cols → cell (coerce_if cols c r) c = coerce_numeric (cell r c).
Proof.
  intros Hc. unfold coerce_if, coerce_cell. rewrite bool_decide_eq_true_2 by done.
  apply cell_insert_eq.
Qed.

Lemma lookup_coerce_cell_ne c c' (r : row) : c ≠ c' → coerce_cell c r !! c' = r !! c'.
Proof. intros Hc. unfold coerce_cell. by rewrite lookup_insert_ne. Qed.

Lemma cell_coerce_cell_ne c c' (r : row) : c ≠ c' → cell (coerce_cell c r) c' = cell r c'.
Proof. intros Hc. unfold cell. by rewrite lookup_coerce_cell_ne. Qed.

Lemma cell_coerce_cell_eq c (r : row) : cell (coerce_cell c r) c = coerce_numeric (cell r c).
Proof. apply cell_insert_eq. Qed.

Lemma lookup_str_cell_ne c c' (r : row) : c ≠ c' → str_cell c r !! c' = r !! c'.
Proof. intros Hc. unfold str_cell. by rewrite lookup_insert_ne. Qed.

Lemma cell_str_cell_ne c c' (r : row) : c ≠ c' → cell (str_cell c r) c' = cell r c'.
Proof. intros Hc. unfold cell. by rewrite lookup_str_cell_ne. Qed.

Lemma cell_str_cell_eq c (r : row) : cell (str_cell c r) c = VStr (py_str (cell r c)).
Proof. apply cell_insert_eq. Qed.

Ltac cell_steps :=
  repeat first
    [ rewrite cell_insert_eq
    | rewrite cell_coerce_cell_eq
    | rewrite cell_str_cell_eq
    | rewrite cell_coerce_if_eq by done
    | rewrite cell_insert_ne by done
    | rewrite cell_coerce_cell_ne by done
    | rewrite cell_str_cell_ne by done
    | rewrite cell_coerce_if_ne by done ].

Lemma convert_row_numeric cols (r : row) c :
  c ∈ numeric_columns → c ∈ cols →
  cell (convert_row cols r) c = coerce_numeric (cell r c).
Proof.
  intros Hc Hcols. unfold convert_row, float_columns. cbn [foldl].
  unfold numeric_columns, float_columns, int32_columns in Hc. cbn [app] in Hc.
  repeat (apply elem_of_cons in Hc as [->|Hc]);
    [..|by apply elem_of_nil in Hc]; case_bool_decide; by cell_steps.
Qed.

Lemma convert_row_unique cols (r : row) :
  cell (convert_row cols r) "unique" = coerce_numeric (cell r "unique").
Proof.
  unfold convert_row, float_columns. cbn [foldl]. case_bool_decide; by cell_steps.
Qed.


Lemma convert_row_scan cols (r : row) :
  cell (convert_row cols r) "scan" = VStr (py_str (cell r "scan"))
  ∧ cell (convert_row cols r) "scan_reference_file_name"
    = VStr (py_str (cell r "scan_reference_file_name")).
Proof.
  unfold convert_row, float_columns. cbn [foldl].
  split; case_bool_decide; by cell_steps.
Qed.

Lemma convert_row_other cols (r : row) c :
  c ∉ converted_columns → convert_row cols r !! c = r !! c.
Proof.
  intros Hc. unfold convert_row, float_columns. cbn [foldl].
  assert (∀ c', c' ∈ converted_columns → c' ≠ c) as Hne by (by intros c' H' ->).
  case_bool_decide;
    repeat first
      [ rewrite lookup_insert_ne by (apply Hne; solve_elem)
      | rewrite lookup_coerce_cell_ne by (apply Hne; solve_elem)
      | rewrite lookup_str_cell_ne by (apply Hne; solve_elem)
      | rewrite lookup_coerce_if_ne by (apply Hne; solve_elem) ]; done.
Qed.

(** *** When [convert_to_parquet_format] returns and when it raises *)

(** With [unique] present and the Int32 columns castable, the three Int32
    stages succeed and control reaches the lookup of [scan]. *)
Lemma convert_to_parquet_format_Int32_stages res :
  "unique" ∈ columns res → int32_ok res →
  convert_to_parquet_format res =
  (let res3 := {| columns := columns res;
                  rows := (λ r, coerce_if (columns res) "is_decoy"
                                  (coerce_if (columns res) "precursor_charge"
                                     (coerce_cell "unique"
                                        (foldl (λ r c, coerce_if (columns res) c r) r
                                           float_columns)))) <$> rows res |} in
   vs ← column res3 "scan";
   let res4 := set_column "scan" (astype_str vs) res3 in
   vs ← column res4 "scan_reference_file_name";
   let res5 := set_column "scan_reference_file_name" (astype_str vs) res4 in
   Ok {| columns := add_label "rt" (columns res5);
         rows := (λ r, if bool_decide ("rt" ∈ columns res5)
                       then coerce_cell "rt" r else <["rt" := VNull]> r) <$> rows res5 |}).
Proof.
  intros Hu Hok. rewrite convert_to_parquet_format_unfold.
  rewrite to_Int32_column_intro; cbn [columns rows mbind result_bind]; [|done|].
  2:{ apply Forall_fmap, Forall_forall. intros r Hr. unfold compose, float_columns.
      cbn [foldl]. cell_steps. apply Hok; [done|solve_elem|done]. }
  rewrite guarded_Int32_intro; cbn [columns rows mbind result_bind].
  2:{ intros Hc. rewrite <- list_fmap_compose. apply Forall_fmap, Forall_forall.
      intros r Hr. unfold compose, float_columns. cbn [foldl]. cell_steps.
      apply Hok; [done|solve_elem|done]. }
  rewrite guarded_Int32_intro; cbn [columns rows mbind result_bind].
  2:{ intros Hc. rewrite <- !list_fmap_compose. apply Forall_fmap, Forall_forall.
      intros r Hr. unfold compose, float_columns. cbn [foldl]. cell_steps.
      apply Hok; [done|solve_elem|done]. }
  by rewrite <- !list_fmap_compose.
Qed.

Lemma convert_to_parquet_format_intro res :
  "unique" ∈ columns res → "scan" ∈ columns res →
  "scan_reference_file_name" ∈ columns res → int32_ok res →
  convert_to_parquet_format res
  = Ok {| columns := add_label "rt" (columns res);
          rows := convert_row (columns res) <$> rows res |}.
Proof.
  intros Hu Hs Hf Hok. rewrite convert_to_parquet_format_Int32_stages by done.
  cbn zeta. rewrite column_Ok by done. cbn [mbind result_bind].
  rewrite astype_str_column by done. rewrite column_Ok by done.
  cbn [mbind result_bind]. rewrite astype_str_column by done. cbn [columns rows].
  do 2 f_equal. rewrite <- !list_fmap_compose. apply list_fmap_ext. by intros _ r _.
Qed.




Lemma unparsable_coerce v : unparsable v → coerce_numeric v = VNull.
Proof. destruct v; simpl; try done. by intros ->. Qed.

Lemma unparsable_castable v : unparsable v → castable v.
Proof. intros Hv. unfold castable. by rewrite unparsable_coerce. Qed.


(** *** Frames whose rows are computed from a base list *)

Lemma column_fmap {A} cols (h : A → row) l c :
  c ∈ cols →
  column {| columns := cols; rows := h <$> l |} c = Ok ((λ a, cell (h a) c) <$> l).
Proof. intros Hc. rewrite column_Ok by done. cbn [rows]. by rewrite <- list_fmap_compose. Qed.

Lemma zip_with_fmap_fmap {A B C D} (f : B → C → D) (h : A → B) (g : A → C) l :
  zip_with f (h <$> l) (g <$> l) = (λ a, f (h a) (g a)) <$> l.
Proof. induction l as [|a l IH]; [done|]. rewrite !fmap_cons. cbn [zip_with]. by f_equal. Qed.

Lemma set_column_on_fmap {A} c (g : A → value) (h : A → row) cols l :
  set_column c (g <$> l) {| columns := cols; rows := h <$> l |}
  = {| columns := add_label c cols; rows := (λ a, <[c := g a]> (h a)) <$> l |}.
Proof.
  unfold set_column. cbn [columns rows].
  by rewrite (zip_with_fmap_fmap (λ (r : row) v, <[c := v]> r) h g).
Qed.

Lemma set_scalar_on_fmap {A} c v (h : A → row) cols l :
  set_scalar c v {| columns := cols; rows := h <$> l |}
  = {| columns := add_label c cols; rows := (λ a, <[c := v]> (h a)) <$> l |}.
Proof.
  unfold set_scalar, set_column. cbn [columns rows]. f_equal.
  induction l as [|a l IH]; [done|]. rewrite !fmap_cons. cbn. by f_equal.
Qed.

Lemma select_columns_inv df cs sub :
  select_columns df cs = Ok sub →
  cs ⊆ columns df
  ∧ sub = {| columns := cs; rows := (λ r, filter (λ kv, kv.1 ∈ cs) r) <$> rows df |}.
Proof.
  unfold select_columns. destruct (list_find _ cs) as [[i c]|] eqn:Hfind; [done|].
  intros [= <-]. split; [|done]. intros c Hc.
  destruct (decide (c ∈ columns df)) as [|Hn]; [done|].
  eapply list_find_None, Forall_forall in Hfind; [|exact Hc]. by destruct Hfind.
Qed.

Lemma map_result_Ok_pure {A B} (g : A → B) (f : A → result B) l l' :
  (∀ a b, a ∈ l → f a = Ok b → b = g a) →
  map_result f l = Ok l' → l' = g <$> l.
Proof.
  intros Hf. rewrite map_result_Ok. induction 1 as [|a b l l' Hab _ IH]; [done|].
  rewrite fmap_cons. f_equal.
  - eapply Hf; [left|done].
  - apply IH. intros a' b' Ha'. apply Hf. by right.
Qed.

Lemma set_two_columns c1 c2 (g1 g2 : row → value) df :
  set_column c2 (g2 <$> rows df) (set_column c1 (g1 <$> rows df) df)
  = {| columns := add_label c2 (add_label c1 (columns df));
       rows := (λ r, <[c2 := g2 r]> (<[c1 := g1 r]> r)) <$> rows df |}.
Proof. rewrite set_column_fmap. unfold assign. by rewrite set_column_on_fmap. Qed.

(** *** Annotation *)

Lemma generate_best_scan_Ok (r : row) pep_dict p :
  generate_best_scan r pep_dict = Ok p → p = best_scan pep_dict r.
Proof.
  unfold generate_best_scan, best_scan, list_get.
  destruct (pep_dict !! _) as [t|]; [|by intros [= <-]].
  destruct (t !! 1) as [a|]; [|done]. destruct (t !! 2) as [b|]; [|done].
  by intros [= <-].
Qed.

Lemma best_scan_select pep_dict (r : row) :
  best_scan pep_dict (filter (λ kv, kv.1 ∈ ["peptidoform"; "precursor_charge"]) r)
  = best_scan pep_dict r.
Proof. unfold best_scan. rewrite !cell_select by solve_elem. done. Qed.

Lemma add_pg_global_qvalue_inv msstats out :
  add_pg_global_qvalue msstats = Ok out →
  "mp_accessions" ∈ columns msstats
  ∧ out = {| columns := add_label "pg_global_qvalue" (columns msstats);
             rows := qvalue_row <$> rows msstats |}.
Proof.
  unfold add_pg_global_qvalue.
  destruct (decide ("mp_accessions" ∈ columns msstats)) as [Hacc|Hacc];
    [|by rewrite column_Err].
  rewrite column_Ok by done. cbn [mbind result_bind]. unfold map_dict_values.
  rewrite <- list_fmap_compose, set_column_fmap. by intros [= <-].
Qed.

Lemma add_best_scan_inv msstats pep_dict out :
  add_best_scan msstats pep_dict = Ok out →
  out = {| columns := add_label "scan"
                        (add_label "scan_reference_file_name" (columns msstats));
           rows := scan_row pep_dict <$> rows msstats |}.
Proof.
  unfold add_best_scan.
  intros (sub & [_ ->]%select_columns_inv & H)%bind_Ok. cbn [rows] in H.
  apply bind_Ok in H as (scans & Hscans & H).
  apply (map_result_Ok_pure (best_scan pep_dict)) in Hscans;
    [|intros ???; apply generate_best_scan_Ok].
  subst scans. cbn zeta in H. injection H as <-.
  rewrite <- !list_fmap_compose.
  trans (set_column "scan" ((λ r, (best_scan pep_dict r).2) <$> rows msstats)
           (set_column "scan_reference_file_name"
              ((λ r, (best_scan pep_dict r).1) <$> rows msstats) msstats));
    [|apply set_two_columns].
  f_equal; [|f_equal]; apply list_fmap_ext; intros; unfold compose;
    by rewrite best_scan_select.
Qed.

Lemma add_modifications_inv msstats out :
  add_modifications msstats = Ok out →
  out = {| columns := add_label "modifications" (add_label "peptidoform" (columns msstats));
           rows := modifications_row <$> rows msstats |}.
Proof.
  unfold add_modifications.
  intros (sub & [_ ->]%select_columns_inv & H)%bind_Ok. cbn [rows] in H.
  cbn zeta in H. injection H as <-. rewrite <- !list_fmap_compose.
  trans (set_column "modifications"
           ((λ r, (generate_modifications_details (cell r "peptidoform")).2)
              <$> rows msstats)
           (set_column "peptidoform"
              ((λ r, (generate_modifications_details (cell r "peptidoform")).1)
                 <$> rows msstats) msstats));
    [|apply set_two_columns].
  f_equal; [|f_equal]; apply list_fmap_ext; intros; unfold compose;
    by rewrite cell_select by solve_elem.
Qed.

Lemma normalise_accessions_inv msstats out :
  normalise_accessions msstats = Ok out →
  out = {| columns := add_label "mp_accessions" (columns msstats);
           rows := accession_row <$> rows msstats |}.
Proof.
  unfold normalise_accessions.
  destruct (decide ("mp_accessions" ∈ columns msstats)) as [Hacc|Hacc];
    [|by rewrite column_Err].
  rewrite column_Ok by done. cbn [mbind result_bind].
  rewrite <- list_fmap_compose, set_column_fmap. by intros [= <-].
Qed.

Lemma rows_add_placeholders msstats :
  rows (add_placeholders msstats) = placeholders_row <$> rows msstats.
Proof.
  unfold add_placeholders. cbn zeta. rewrite !rows_set_scalar, <- !list_fmap_compose.
  done.
Qed.

Lemma columns_add_placeholders msstats c :
  c ∈ columns (add_placeholders msstats) ↔ c ∈ placeholder_columns ∨ c ∈ columns msstats.
Proof.
  unfold add_placeholders, set_scalar, set_column. cbn [columns].
  rewrite !elem_of_add_label. unfold placeholder_columns.
  rewrite !elem_of_cons, elem_of_nil. clear_functions; naive_solver.
Qed.

Lemma add_additional_msg_inv msstats pep_dict out :
  add_additional_msg msstats pep_dict = Ok out →
  "mp_accessions" ∈ columns msstats
  ∧ (∀ c, c ∈ columns msstats ∨ c ∈ placeholder_columns → c ∈ columns out)
  ∧ "scan" ∈ columns out ∧ "scan_reference_file_name" ∈ columns out
  ∧ rows out = annotated_row pep_dict <$> rows msstats.
Proof.
  unfold add_additional_msg.
  intros (m1 & [Hacc ->]%add_pg_global_qvalue_inv & H)%bind_Ok.
  apply bind_Ok in H as (m2 & ->%add_best_scan_inv & H).
  apply bind_Ok in H as (m3 & ->%add_modifications_inv & H).
  apply bind_Ok in H as (m4 & ->%normalise_accessions_inv & H).
  injection H as <-. cbn [columns rows].
  split; [done|]. split; [|split; [|split]].
  - intros c Hc. apply columns_add_placeholders. cbn [columns].
    rewrite !elem_of_add_label. clear_functions; naive_solver.
  - apply columns_add_placeholders. cbn [columns]. rewrite !elem_of_add_label. clear_functions; naive_solver.
  - apply columns_add_placeholders. cbn [columns]. rewrite !elem_of_add_label. clear_functions; naive_solver.
  - rewrite rows_add_placeholders. cbn [rows]. by rewrite <- !list_fmap_compose.
Qed.



Lemma cell_placeholders_row (r : row) c :
  c ∉ placeholder_columns → cell (placeholders_row r) c = cell r c.
Proof.
  intros Hc. unfold placeholders_row, placeholder_columns. cbn [foldl].
  rewrite !cell_insert_ne; [done|..]; intros <-; apply Hc; solve_elem.
Qed.

Lemma annotated_row_scan pep_dict (r : row) :
  cell (annotated_row pep_dict r) "scan" = (best_scan pep_dict r).2
  ∧ cell (annotated_row pep_dict r) "scan_reference_file_name" = (best_scan pep_dict r).1.
Proof.
  unfold annotated_row. rewrite !cell_placeholders_row by solve_not_elem.
  unfold accession_row, modifications_row, scan_row.
  assert (best_scan pep_dict (qvalue_row r) = best_scan pep_dict r) as ->.
  { unfold best_scan, qvalue_row. by rewrite !cell_insert_ne by done. }
  split; by repeat first [rewrite cell_insert_eq | rewrite cell_insert_ne by done].
Qed.

(** The batch [generate_feature_report] yields, row by row. *)
Lemma feature_report_batch_inv map_dict pep_dict msstats out :
  feature_report_batch map_dict pep_dict msstats = Ok out →
  ∃ merged annotated,
    merge_msstats_and_psm msstats map_dict = Ok merged
    ∧ add_additional_msg merged pep_dict = Ok annotated
    ∧ (∀ c, c ∈ placeholder_columns → c ∈ columns annotated)
    ∧ columns out = add_label "rt" (columns annotated)
    ∧ rows out
      = (λ r, convert_row (columns annotated) (annotated_row pep_dict r)) <$> rows merged.
Proof.
  unfold feature_report_batch.
  intros (merged & Hm & H)%bind_Ok. apply bind_Ok in H as (annotated & Ha & H).
  exists merged, annotated. split; [done|]. split; [done|].
  apply add_additional_msg_inv in Ha as (_ & Hcols & _ & _ & Hrows).
  apply convert_to_parquet_format_inv in H as (_ & _ & _ & ->). cbn [columns rows].
  split; [intros c Hc; apply Hcols; by right|]. split; [done|].
  by rewrite Hrows, <- list_fmap_compose.
Qed.


(** *** The join, when it returns *)

Lemma merge_psm_Ok map_dict (r : row) i v :
  merge_psm map_dict (filter (λ kv, kv.1 ∈ psm_columns) r) i = Ok v →
  v = looked_up map_dict r i.
Proof.
  unfold merge_psm, looked_up, key_of, psm_columns, list_get. cbn [fmap list_fmap].
  rewrite !cell_select by solve_elem.
  destruct (map_dict !! _) as [t|]; [|by intros [= <-]].
  destruct (t !! i) as [w|]; [|done]. by intros [= <-].
Qed.

Lemma merge_feature_inv map_dict msstats i feature out :
  merge_feature map_dict msstats i feature = Ok out →
  psm_columns ⊆ columns msstats
  ∧ out = assign feature (λ r, looked_up map_dict r i) msstats.
Proof.
  unfold merge_feature.
  intros (sub & [Hsub ->]%select_columns_inv & H)%bind_Ok. cbn [rows] in H.
  apply bind_Ok in H as (vs & Hvs & H). injection H as <-. split; [done|].
  rewrite map_result_Ok in Hvs. apply Forall2_fmap_l in Hvs.
  rewrite <- set_column_fmap. f_equal.
  induction Hvs as [|r v l l' Hv _ IH]; [done|].
  rewrite fmap_cons. f_equal; [by apply merge_psm_Ok in Hv|done].
Qed.

Lemma merge_msstats_and_psm_inv msstats map_dict out :
  merge_msstats_and_psm msstats map_dict = Ok out →
  psm_columns ⊆ columns msstats
  ∧ rows out = merged_row map_dict <$> rows msstats.
Proof.
  unfold merge_msstats_and_psm. cbn [imap map_features fold_result fst snd compose].
  intros (m0 & [Hcols ->]%merge_feature_inv & H)%bind_Ok. split; [done|].
  do 6 (apply bind_Ok in H as (? & [_ ->]%merge_feature_inv & H)).
  injection H as <-.
  rewrite !rows_assign, <- !list_fmap_compose. apply list_fmap_ext.
  intros _ r _. unfold compose, merged_row.
  rewrite !looked_up_insert; [done|..]; solve_not_elem.
Qed.

Lemma best_scan_merged_row pep_dict map_dict (r : row) :
  best_scan pep_dict (merged_row map_dict r) = best_scan pep_dict r.
Proof. unfold best_scan, merged_row. by rewrite !cell_insert_ne by done. Qed.

(** In a yielded batch the two scan fields of a row are the strings [str]
    makes of what [generate_best_scan] found for it. *)
Lemma feature_report_batch_scan map_dict pep_dict msstats out n (r : row) :
  feature_report_batch map_dict pep_dict msstats = Ok out →
  rows msstats !! n = Some r →
  ∃ r', rows out !! n = Some r'
    ∧ cell r' "scan" = VStr (py_str (best_scan pep_dict r).2)
    ∧ cell r' "scan_reference_file_name" = VStr (py_str (best_scan pep_dict r).1).
Proof.
  intros (merged & annotated & Hm & _ & _ & _ & Hrows)%feature_report_batch_inv Hr.
  apply merge_msstats_and_psm_inv in Hm as [_ Hm].
  rewrite Hm, <- list_fmap_compose in Hrows. eexists. split.
  { by rewrite Hrows, list_lookup_fmap, Hr. }
  unfold compose.
  destruct (convert_row_scan (columns annotated)
              (annotated_row pep_dict (merged_row map_dict r))) as [-> ->].
  destruct (annotated_row_scan pep_dict (merged_row map_dict r)) as [-> ->].
  by rewrite best_scan_merged_row.
Qed.

(** A row whose pair is absent from the peptide-level index gets the string
    ["None"] in both scan fields, and no null. *)
Lemma feature_report_batch_unmatched_scan map_dict pep_dict msstats out n (r : row) :
  feature_report_batch map_dict pep_dict msstats = Ok out →
  rows msstats !! n = Some r →
  pep_dict !! [cell r "peptidoform"; cell r "precursor_charge"] = None →
  ∃ r', rows out !! n = Some r'
    ∧ cell r' "scan" = VStr "None"
    ∧ cell r' "scan_reference_file_name" = VStr "None".
Proof.
  intros Hout Hr Hkey.
  destruct (feature_report_batch_scan _ _ _ _ _ _ Hout Hr) as (r' & Hr' & Hs & Hf).
  exists r'. unfold best_scan in Hs, Hf. by rewrite Hkey in Hs, Hf.
Qed.


(** *** The first minimum of a column *)








(** *** Groups *)

Lemma elem_of_group_keys by_ df k :
  k ∈ group_keys by_ df ↔ VNull ∉ k ∧ ∃ r, r ∈ rows df ∧ key_of by_ r = k.
Proof using sort_keys_perm.
  unfold group_keys. rewrite sort_keys_perm, elem_of_remove_dups, list_elem_of_filter.
  rewrite list_elem_of_fmap. clear_functions; naive_solver.
Qed.

Lemma NoDup_group_keys by_ df : NoDup (group_keys by_ df).
Proof using sort_keys_perm. unfold group_keys. rewrite sort_keys_perm. apply NoDup_remove_dups. Qed.

Lemma groupby_Ok df by_ :
  by_ ⊆ columns df →
  groupby df by_ = Ok ((λ k, (k, group_of by_ df k)) <$> group_keys by_ df).
Proof.
  intros Hby. unfold groupby.
  destruct (list_find _ by_) as [[i c]|] eqn:Hfind; [|done].
  apply list_find_Some in Hfind as (Hi & Hc & _).
  destruct Hc. apply Hby. by eapply list_elem_of_lookup_2.
Qed.







(** *** One chunk *)



(** *** The invariant of the loop over the chunks *)









(** *** Slices *)

Lemma filter_iff_in {A} (P Q : A → Prop) `{∀ x, Decision (P x)} `{∀ x, Decision (Q x)}
    (l : list A) :
  (∀ x, x ∈ l → P x ↔ Q x) → filter P l = filter Q l.
Proof.
  induction l as [|a l IH]; intros HPQ; [done|].
  rewrite !filter_cons. rewrite IH by (intros; apply HPQ; by right).
  destruct (decide (P a)) as [Ha|Ha], (decide (Q a)) as [Hb|Hb]; try done.
  - destruct Hb. by apply HPQ; [left|].
  - destruct Ha. by apply HPQ; [left|].
Qed.

Lemma filter_elem_cons_Permutation {A B} `{EqDecision B} (f : A → B) k0 (ks : list B)
    (l : list A) :
  k0 ∉ ks →
  filter (λ a, f a ∈ k0 :: ks) l
  ≡ₚ filter (λ a, f a = k0) l ++ filter (λ a, f a ∈ ks) l.
Proof.
  intros Hk0. induction l as [|a l IH]; [done|]. rewrite !filter_cons.
  destruct (decide (f a = k0)) as [Ha|Ha].
  - rewrite decide_True by (rewrite Ha; by left).
    rewrite decide_False by (by rewrite Ha). cbn. by f_equiv.
  - destruct (decide (f a ∈ ks)) as [Hin|Hin].
    + rewrite decide_True by (by right). rewrite IH.
      by rewrite Permutation_middle.
    + rewrite decide_False; [done|]. by intros [?|?]%elem_of_cons.
Qed.

Lemma concat_groups_Permutation {A B} `{EqDecision B} (f : A → B) (ks : list B)
    (l : list A) :
  NoDup ks →
  concat ((λ k, filter (λ a, f a = k) l) <$> ks) ≡ₚ filter (λ a, f a ∈ ks) l.
Proof.
  induction 1 as [|k0 ks Hk0 _ IH].
  - cbn. induction l as [|a l IHl]; [done|]. rewrite filter_cons.
    by rewrite decide_False by apply not_elem_of_nil.
  - rewrite fmap_cons. cbn [concat]. rewrite IH.
    by rewrite filter_elem_cons_Permutation.
Qed.

(** C3, as the code has it: for a batch and a non-empty list of partition
    columns that all exist in it, [slice] yields groups with distinct keys,
    none of which has a missing component; the group of a key holds, in
    their order, exactly the rows of the batch with that key; and the rows
    of all the groups together are the rows of the batch that have no
    missing value in a partition column, each as often as the batch has it.
    So no row is in two groups, and a row with a missing partition value is
    in none. *)
Theorem slice_groups_partition_non_null_rows (df : DataFrame) (partitions : list string) :
  partitions ≠ [] → partitions ⊆ columns df →
  ∃ groups, slice df (PyList partitions) = Ok groups
    ∧ NoDup groups.*1
    ∧ Forall (λ g, VNull ∉ g.1 ∧ rows g.2 ≠ []
                   ∧ rows g.2 = filter (λ r, key_of partitions r = g.1) (rows df))
        groups
    ∧ concat ((λ g, rows g.2) <$> groups)
      ≡ₚ filter (λ r, VNull ∉ key_of partitions r) (rows df).
Proof using sort_keys_perm.
  intros Hne Hcols. unfold slice.
  rewrite bool_decide_eq_false_2 by (by destruct partitions).
  destruct (list_find _ partitions) as [[i c]|] eqn:Hfind.
  { apply list_find_Some in Hfind as (Hi & Hc & _).
    destruct Hc. apply Hcols. by eapply list_elem_of_lookup_2. }
  rewrite groupby_Ok by done. eexists. split; [done|].
  split; [|split].
  - rewrite <- list_fmap_compose.
    rewrite (list_fmap_ext _ id) by done.
    rewrite list_fmap_id. apply NoDup_group_keys.
  - apply Forall_fmap, Forall_forall. intros k Hk. cbn.
    apply elem_of_group_keys in Hk as (Hnull & r & Hr & Hkey).
    split; [done|]. split; [|done]. intros Hnil.
    assert (r ∈ filter (λ r, key_of partitions r = k) (rows df)) as Hin
      by (by apply list_elem_of_filter).
    rewrite Hnil in Hin. by apply elem_of_nil in Hin.
  - rewrite <- list_fmap_compose.
    rewrite (list_fmap_ext _ (λ k, filter (λ r, key_of partitions r = k) (rows df)))
      by done.
    rewrite concat_groups_Permutation by apply NoDup_group_keys.
    erewrite filter_iff_in; [done|]. intros r Hr. cbn.
    rewrite elem_of_group_keys. clear_functions; naive_solver.
Qed.

(** *** Rules for effectful computations *)

Lemma hoare_bind {A B} P (m : io A) (f : A → io B) Q R E :
  hoare P m Q E → (∀ a, hoare (Q a) (f a) R E) → hoare P (m ≫= f) R E.
Proof.
  intros Hm Hf w Hw. specialize (Hm w Hw). unfold mbind, io_bind.
  destruct (m w) as [w' [a|e]]; [|done]. by apply Hf.
Qed.

Lemma hoare_conseq {A} (P P' : world → Prop) (m : io A) (Q Q' : A → world → Prop)
    (E E' : world → Prop) :
  hoare P' m Q' E' → (∀ w, P w → P' w) → (∀ a w, Q' a w → Q a w) →
  (∀ w, E' w → E w) → hoare P m Q E.
Proof.
  intros Hm HP HQ HE w Hw. specialize (Hm w (HP w Hw)).
  destruct (m w) as [w' [a|e]]; auto.
Qed.

Lemma hoare_ret {A} (P : world → Prop) (a : A) E : hoare P (mret a) (λ _, P) E.
Proof. by intros w Hw. Qed.

Lemma hoare_lift {A} (P : world → Prop) (r : result A) :
  hoare P (lift r) (λ _, P) P.
Proof. intros w Hw. unfold lift. by destruct r. Qed.

Lemma hoare_for_each {A} (I : world → Prop) (l : list A) (body : A → io unit) E :
  (∀ a, hoare I (body a) (λ _, I) E) → hoare I (for_each l body) (λ _, I) E.
Proof.
  intros Hbody. induction l as [|a l IH]; cbn [for_each].
  - apply hoare_ret.
  - eapply hoare_bind; [apply Hbody|]. intros u. apply IH.
Qed.

Lemma hoare_emit db e E : hoare (running db) (emit e) (λ _, running db) E.
Proof. by intros w Hw. Qed.

Lemma hoare_set_duckdb db db' E :
  hoare (running db) (set_duckdb db') (λ _, running db') E.
Proof. by intros w [_ Hw]. Qed.

Lemma hoare_save_slice_file db feature key E :
  hoare (running db) (save_slice_file feature key) (λ _, running db) E.
Proof.
  intros w [Hdb Hw]. split; [done|]. unfold sinks_open. cbn [pqwriters].
  apply map_Forall_insert_2; [|done]. cbn [closes].
  destruct (pqwriters w !! key) as [s|] eqn:Hs; [|done]. by apply Hw in Hs.
Qed.

Lemma hoare_close_file db E :
  hoare (running db) close_file (λ _ w, duckdb w = db ∧ sinks_closed_once w) E.
Proof.
  intros w [Hdb Hw]. split; [done|]. unfold sinks_closed_once. cbn [pqwriters].
  intros k s. rewrite lookup_fmap. destruct (pqwriters w !! k) as [s0|] eqn:Hs; [|done].
  intros [= <-]. cbn. apply Hw in Hs. by rewrite Hs.
Qed.

Lemma hoare_lift_running {A} db (r : result A) E :
  (∀ w, running db w → E w) → hoare (running db) (lift r) (λ _, running db) E.
Proof. intros HE w Hw. unfold lift. destruct r; [done|by apply HE]. Qed.

(** A world that is running has released nothing. *)
Lemma running_unreleased db w :
  db ≠ DbDestroyed → running db w → duckdb w ≠ DbDestroyed ∧ sinks_open w.
Proof. intros Hdb [Hw ?]. split; [by rewrite Hw|done]. Qed.

Ltac lift_step :=
  apply hoare_lift_running; let w := fresh in intros w; by apply running_unreleased.

(** *** Release of the resources *)

Lemma transform_msstats_in_release msstats_in (consume : DataFrame → io unit) :
  (∀ msstats, hoare (running DbLive) (consume msstats) (λ _, running DbLive)
                (λ w, duckdb w ≠ DbDestroyed ∧ sinks_open w)) →
  hoare (running DbAbsent) (transform_msstats_in msstats_in consume)
    (λ _, running DbDestroyed) (λ w, duckdb w ≠ DbDestroyed ∧ sinks_open w).
Proof.
  intros Hconsume. unfold transform_msstats_in, MsstatsIN, destroy_duckdb_database.
  eapply hoare_bind.
  { eapply hoare_bind; [apply hoare_emit|]. intros u. apply hoare_set_duckdb. }
  intros u. eapply hoare_bind.
  { apply hoare_for_each with (I := running DbLive). intros msstats.
    eapply hoare_bind; [apply hoare_emit|]. intros u'. apply Hconsume. }
  intros u'. eapply hoare_bind; [apply hoare_emit|]. intros u''.
  apply hoare_set_duckdb.
Qed.

Lemma generate_slice_feature_release partitions psm msstats_in :
  hoare (running DbAbsent)
    (generate_slice_feature partitions psm msstats_in
       (λ key feature, save_slice_file feature key))
    (λ _, running DbDestroyed) (λ w, duckdb w ≠ DbDestroyed ∧ sinks_open w).
Proof.
  unfold generate_slice_feature, generate_feature_report.
  eapply hoare_bind; [lift_step|]. intros dicts.
  eapply hoare_bind; [apply hoare_emit|].
  intros u. apply transform_msstats_in_release. intros msstats.
  eapply hoare_bind; [lift_step|]. intros out.
  eapply hoare_bind; [apply hoare_emit|]. intros u'.
  eapply hoare_bind; [lift_step|]. intros groups.
  apply hoare_for_each. intros g.
  eapply hoare_bind; [lift_step|]. intros feature.
  eapply hoare_bind; [apply hoare_emit|]. intros u''.
  apply hoare_save_slice_file.
Qed.

(** C4, as the code has it: a run of [write_features_to_file] that returns
    has destroyed the duckdb database and has closed every sink it opened
    exactly once; a run that raises has released nothing: the database is
    not destroyed and no sink is closed when the error reaches the caller. *)
Theorem write_features_to_file_releases_only_on_return
    (partitions : pyobj) (psm : Psm) (msstats_in : list DataFrame) :
  match write_features_to_file partitions psm msstats_in initial_world with
  | (w, Ok _) => duckdb w = DbDestroyed ∧ sinks_closed_once w
  | (w, Err _) => duckdb w ≠ DbDestroyed ∧ sinks_open w
  end.
Proof.
  assert (hoare (λ w, duckdb w = DbAbsent)
            (write_features_to_file partitions psm msstats_in)
            (λ _ w, duckdb w = DbDestroyed ∧ sinks_closed_once w)
            (λ w, duckdb w ≠ DbDestroyed ∧ sinks_open w)) as Hrun.
  { unfold write_features_to_file.
    eapply hoare_bind with (Q := λ _, running DbAbsent).
    { intros w Hw. split; [done|]. apply map_Forall_empty. }
    intros u. eapply hoare_bind; [lift_step|].
    intros dicts. eapply hoare_bind; [apply hoare_emit|].
    intros u'. eapply hoare_bind; [lift_step|].
    intros n. eapply hoare_bind; [apply generate_slice_feature_release|]. intros u''.
    apply hoare_close_file. }
  by apply (Hrun initial_world).
Qed.

(** *** Validation of the partition list *)



(** *** The index does not depend on the chunking *)






(** *** From the PSM table to the merged batch *)





(** *** The exact domain of [convert_to_parquet_format] *)

Lemma astype_Int32_error vs e : astype_Int32 vs = Err e → e = TypeError.
Proof.
  unfold astype_Int32. induction vs as [|v vs IH]; [done|]. cbn [map_result].
  destruct (cast_Int32 v) as [v'|e'] eqn:Hv; cbn [mbind result_bind].
  - destruct (map_result cast_Int32 vs) as [vs'|e'']; cbn [mbind result_bind]; [done|].
    intros [= <-]. by apply IH.
  - intros [= <-]. destruct v as [|q| |]; simpl in Hv; try congruence.
    destruct (is_int32 q); congruence.
Qed.

Lemma to_Int32_column_castable c df out :
  to_Int32_column c df = Ok out → Forall (λ r, castable (cell r c)) (rows df).
Proof.
  unfold to_Int32_column. destruct (decide (c ∈ columns df)) as [Hc|Hc];
    [|by rewrite column_Err].
  rewrite column_Ok by done. cbn [mbind result_bind]. rewrite to_numeric_column.
  destruct (astype_Int32 _) as [vs|e] eqn:Hvs; [|done]. intros _.
  apply astype_Int32_Ok in Hvs as [_ Hall]. by apply Forall_fmap in Hall.
Qed.

Lemma to_Int32_column_error c df e :
  c ∈ columns df → to_Int32_column c df = Err e → e = TypeError.
Proof.
  intros Hc. unfold to_Int32_column. rewrite column_Ok by done.
  cbn [mbind result_bind]. destruct (astype_Int32 _) as [vs|e'] eqn:Hvs; [done|].
  intros [= <-]. by eapply astype_Int32_error.
Qed.

Lemma guarded_Int32_castable c df out :
  (if has_column df c then to_Int32_column c df else Ok df) = Ok out →
  c ∈ columns df → Forall (λ r, castable (cell r c)) (rows df).
Proof.
  intros H Hc. rewrite has_column_true in H by done. by eapply to_Int32_column_castable.
Qed.

Lemma guarded_Int32_error c df e :
  (if has_column df c then to_Int32_column c df else Ok df) = Err e → e = TypeError.
Proof.
  unfold has_column. case_bool_decide as Hc; [|done]. by apply to_Int32_column_error.
Qed.

(** The casts that [convert_to_parquet_format] got through were of castable
    cells of the batch as it was passed in. *)
Lemma convert_to_parquet_format_Int32_inv res :
  (∃ res3,
     (res1 ← to_Int32_column "unique"
               {| columns := columns res;
                  rows := (λ r, foldl (λ r c, coerce_if (columns res) c r) r float_columns)
                            <$> rows res |};
      res2 ← (if has_column res1 "precursor_charge"
              then to_Int32_column "precursor_charge" res1 else Ok res1);
      if has_column res2 "is_decoy" then to_Int32_column "is_decoy" res2 else Ok res2)
     = Ok res3) →
  "unique" ∈ columns res ∧ int32_ok res.
Proof.
  intros (res3 & (res1 & H1 & (res2 & H2 & H3)%bind_Ok)%bind_Ok).
  apply to_Int32_column_castable in H1 as Hc1.
  apply to_Int32_column_inv in H1 as [Hu ->]. cbn [columns rows] in *.
  split; [done|].
  assert ("precursor_charge" ∈ columns res →
          Forall (λ r, castable (cell r "precursor_charge")) (rows res)) as Hc2.
  { intros Hc. eapply guarded_Int32_castable in H2 as Hall; [|done]. cbn [rows] in Hall.
    rewrite !Forall_fmap in Hall.
    eapply Forall_impl; [exact Hall|]. intros r. unfold compose, float_columns.
    cbn [foldl]. by cell_steps. }
  apply guarded_Int32_inv in H2 as ->. cbn [columns rows] in *.
  assert ("is_decoy" ∈ columns res →
          Forall (λ r, castable (cell r "is_decoy")) (rows res)) as Hc3.
  { intros Hc. eapply guarded_Int32_castable in H3 as Hall; [|done]. cbn [rows] in Hall.
    rewrite !Forall_fmap in Hall.
    eapply Forall_impl; [exact Hall|]. intros r. unfold compose, float_columns.
    cbn [foldl]. by cell_steps. }
  rewrite Forall_fmap in Hc1.
  assert (Forall (λ r, castable (cell r "unique")) (rows res)) as Hc1'.
  { eapply Forall_impl; [exact Hc1|]. intros r. unfold compose, float_columns.
    cbn [foldl]. by cell_steps. }
  intros r c Hr Hc Hcols. unfold int32_columns in Hc.
  repeat (apply elem_of_cons in Hc as [->|Hc]); [..|by apply elem_of_nil in Hc].
  - by eapply Forall_forall in Hc1'.
  - by eapply Forall_forall in Hc2.
  - by eapply Forall_forall in Hc3.
Qed.

Lemma convert_to_parquet_format_int32_ok res out :
  convert_to_parquet_format res = Ok out → int32_ok res.
Proof.
  rewrite convert_to_parquet_format_unfold. intros H.
  apply (convert_to_parquet_format_Int32_inv res).
  destruct (to_Int32_column "unique" _) as [res1|]; [|done]. cbn [mbind result_bind] in *.
  destruct (if has_column res1 _ then _ else _) as [res2|]; [|done].
  cbn [mbind result_bind] in *.
  destruct (if has_column res2 _ then _ else _) as [res3|]; [|done]. by exists res3.
Qed.


(** X4 (feature.py, Feature.convert_to_parquet_format): a number that is no
    32-bit integer in [unique], [precursor_charge] or [is_decoy] is not
    coerced to null: the whole batch is refused with a [TypeError], also
    when the columns [scan] and [scan_reference_file_name] are missing, since
    the casts run before those columns are read. *)
Theorem convert_to_parquet_format_bad_Int32_raises (res : DataFrame) (r : row) (c : string) :
  "unique" ∈ columns res →
  r ∈ rows res → c ∈ int32_columns → c ∈ columns res → ¬ castable (cell r c) →
  convert_to_parquet_format res = Err TypeError.
Proof.
  intros Hu Hr Hc Hcols Hbad. rewrite convert_to_parquet_format_unfold.
  pose proof (convert_to_parquet_format_Int32_inv res) as Hinv.
  destruct (to_Int32_column "unique" _) as [res1|e1] eqn:H1; cbn [mbind result_bind] in *.
  2:{ f_equal. by eapply to_Int32_column_error in H1. }
  destruct (if has_column res1 _ then _ else _) as [res2|e2] eqn:H2;
    cbn [mbind result_bind] in *.
  2:{ f_equal. by eapply guarded_Int32_error in H2. }
  destruct (if has_column res2 _ then _ else _) as [res3|e3] eqn:H3;
    cbn [mbind result_bind] in *.
  2:{ f_equal. by eapply guarded_Int32_error in H3. }
  destruct Hinv as [_ Hok]; [by exists res3|]. destruct Hbad. by apply Hok.
Qed.

(** *** Converting twice *)

Lemma coerce_numeric_idemp v : coerce_numeric (coerce_numeric v) = coerce_numeric v.
Proof. destruct v as [|q|s|n]; simpl; try done. by destruct (parse_numeric s). Qed.

Lemma castable_coerce v : castable v → castable (coerce_numeric v).
Proof. unfold castable. by rewrite !coerce_numeric_idemp. Qed.

Lemma add_label_idemp c cols : add_label c (add_label c cols) = add_label c cols.
Proof. apply add_label_elem, elem_of_add_label. by left. Qed.

Lemma lookup_coerce_if cols c c' (r : row) :
  coerce_if cols c r !! c'
  = if bool_decide (c' = c) && bool_decide (c ∈ cols)
    then Some (coerce_numeric (cell r c)) else r !! c'.
Proof.
  unfold coerce_if, coerce_cell.
  destruct (decide (c ∈ cols)) as [Hcols|Hcols];
    [rewrite !(bool_decide_eq_true_2 (c ∈ cols)) by done
    |rewrite !(bool_decide_eq_false_2 (c ∈ cols)) by done; by rewrite andb_false_r].
  rewrite andb_true_r. case_bool_decide as Hc.
  - subst. apply lookup_insert_eq.
  - by rewrite lookup_insert_ne.
Qed.

Lemma lookup_coerce_cell c c' (r : row) :
  coerce_cell c r !! c'
  = if bool_decide (c' = c) then Some (coerce_numeric (cell r c)) else r !! c'.
Proof.
  unfold coerce_cell. case_bool_decide as Hc.
  - subst. apply lookup_insert_eq.
  - by rewrite lookup_insert_ne.
Qed.

Lemma lookup_str_cell c c' (r : row) :
  str_cell c r !! c'
  = if bool_decide (c' = c) then Some (VStr (py_str (cell r c))) else r !! c'.
Proof.
  unfold str_cell. case_bool_decide as Hc.
  - subst. apply lookup_insert_eq.
  - by rewrite lookup_insert_ne.
Qed.

Lemma lookup_rt_stage (cols : list string) c (r : row) :
  (if bool_decide ("rt" ∈ cols) then coerce_cell "rt" r else <["rt" := VNull]> r) !! c
  = if bool_decide (c = "rt")
    then Some (if bool_decide ("rt" ∈ cols) then coerce_numeric (cell r "rt") else VNull)
    else r !! c.
Proof.
  destruct (bool_decide ("rt" ∈ cols)).
  - apply lookup_coerce_cell.
  - case_bool_decide as Hc; [subst; apply lookup_insert_eq|by rewrite lookup_insert_ne].
Qed.

Lemma lookup_convert_row cols (r : row) c :
  convert_row cols r !! c = converted_cell cols r c.
Proof.
  unfold convert_row, converted_cell, float_columns. cbn [foldl app].
  rewrite lookup_rt_stage, !lookup_str_cell, !lookup_coerce_if, lookup_coerce_cell,
    !lookup_coerce_if.
  cell_steps.
  destruct (decide (c = "scan")) as [->|Hn1].
  { rewrite (bool_decide_eq_true_2 ("scan" ∈ _)) by solve_elem. done. }
  destruct (decide (c = "scan_reference_file_name")) as [->|Hn2].
  { rewrite (bool_decide_eq_true_2 ("scan_reference_file_name" ∈ _)) by solve_elem. done. }
  rewrite (bool_decide_eq_false_2 (c ∈ ["scan"; "scan_reference_file_name"]))
    by (clear_functions; set_solver).
  rewrite (bool_decide_eq_false_2 (c = "scan")), (bool_decide_eq_false_2 (c = "scan_reference_file_name")) by done.
  destruct (decide (c = "rt")) as [->|Hn3]; [done|].
  rewrite (bool_decide_eq_false_2 (c = "rt")) by done.
  destruct (decide (c = "unique")) as [->|Hn4]; [done|].
  rewrite (bool_decide_eq_false_2 (c = "unique")) by done.
  destruct (decide (c = "is_decoy")) as [->|Hn5].
  { rewrite (bool_decide_eq_true_2 ("is_decoy" ∈ [_; _; _; _; _; _])) by solve_elem. done. }
  rewrite (bool_decide_eq_false_2 (c = "is_decoy")) by done. cbn [andb].
  destruct (decide (c = "precursor_charge")) as [->|Hn6].
  { rewrite (bool_decide_eq_true_2 ("precursor_charge" ∈ [_; _; _; _; _; _])) by solve_elem. done. }
  rewrite (bool_decide_eq_false_2 (c = "precursor_charge")) by done. cbn [andb].
  destruct (decide (c = "posterior_error_probability")) as [->|Hn7].
  { rewrite (bool_decide_eq_true_2 ("posterior_error_probability" ∈ [_; _; _; _; _; _])) by solve_elem. done. }
  rewrite (bool_decide_eq_false_2 (c = "posterior_error_probability")) by done. cbn [andb].
  destruct (decide (c = "observed_mz")) as [->|Hn8].
  { rewrite (bool_decide_eq_true_2 ("observed_mz" ∈ [_; _; _; _; _; _])) by solve_elem. done. }
  rewrite (bool_decide_eq_false_2 (c = "observed_mz")) by done. cbn [andb].
  destruct (decide (c = "calculated_mz")) as [->|Hn9].
  { rewrite (bool_decide_eq_true_2 ("calculated_mz" ∈ [_; _; _; _; _; _])) by solve_elem. done. }
  rewrite (bool_decide_eq_false_2 (c = "calculated_mz")) by done. cbn [andb].
  destruct (decide (c = "pg_global_qvalue")) as [->|Hn10].
  { rewrite (bool_decide_eq_true_2 ("pg_global_qvalue" ∈ [_; _; _; _; _; _])) by solve_elem. done. }
  rewrite (bool_decide_eq_false_2 (c = "pg_global_qvalue")) by done. cbn [andb].
  rewrite (bool_decide_eq_false_2 (c ∈ [_; _; _; _; _; _])) by (clear_functions; set_solver).
  done.
Qed.

Lemma cell_convert_row cols (r : row) c :
  cell (convert_row cols r) c = default VNull (converted_cell cols r c).
Proof. unfold cell at 1. by rewrite lookup_convert_row. Qed.

Lemma convert_row_idemp cols (r : row) :
  convert_row (add_label "rt" cols) (convert_row cols r) = convert_row cols r.
Proof.
  apply map_eq. intros c. rewrite (lookup_convert_row _ (convert_row cols r)).
  unfold converted_cell at 1. rewrite cell_convert_row.
  rewrite (lookup_convert_row cols r). unfold converted_cell.
  assert ("rt" ∈ add_label "rt" cols) as Hrt by (apply elem_of_add_label; by left).
  rewrite (bool_decide_eq_true_2 _ Hrt).
  destruct (bool_decide (c ∈ ["scan"; "scan_reference_file_name"])); cbv iota; [done|].
  destruct (decide (c = "rt")) as [->|H2].
  { rewrite !(bool_decide_eq_true_2 ("rt" = "rt")) by done. cbv iota. cbn [default from_option id]. f_equal.
    destruct (bool_decide ("rt" ∈ cols)); [apply coerce_numeric_idemp|done]. }
  rewrite !(bool_decide_eq_false_2 (c = "rt")) by done. cbv iota.
  destruct (bool_decide (c = "unique")); cbv iota;
    [cbn [default from_option id]; by rewrite coerce_numeric_idemp|].
  assert (bool_decide (c ∈ add_label "rt" cols) = bool_decide (c ∈ cols)) as ->.
  { apply bool_decide_ext. rewrite elem_of_add_label. clear_functions. naive_solver. }
  destruct (bool_decide (c ∈ _) && bool_decide (c ∈ cols)); cbv iota; [|done].
  cbn [default from_option id]. by rewrite coerce_numeric_idemp.
Qed.

(** X5 (feature.py, Feature.convert_to_parquet_format): converting a
    converted batch changes nothing.  Whenever the function returns a batch, it
    accepts that batch again and returns it as it is. *)
Theorem convert_to_parquet_format_idempotent (res out : DataFrame) :
  convert_to_parquet_format res = Ok out →
  convert_to_parquet_format out = Ok out.
Proof.
  intros H. apply convert_to_parquet_format_int32_ok in H as Hok.
  apply convert_to_parquet_format_inv in H as (Hu & Hs & Hf & ->).
  rewrite convert_to_parquet_format_intro; cbn [columns rows].
  - rewrite add_label_idemp. do 2 f_equal. rewrite <- list_fmap_compose.
    apply list_fmap_ext. intros _ r _. apply convert_row_idemp.
  - apply elem_of_add_label. by right.
  - apply elem_of_add_label. by right.
  - apply elem_of_add_label. by right.
  - intros r' c (r & -> & Hr)%list_elem_of_fmap Hc Hcols. cbn [columns] in Hcols.
    apply elem_of_add_label in Hcols as [->|Hcols].
    { exfalso. unfold int32_columns in Hc. clear_functions. set_solver. }
    rewrite convert_row_numeric; [|unfold numeric_columns; clear_functions; set_solver|done].
    apply castable_coerce. by apply Hok.
Qed.

(** *** The contract of [add_additional_msg] *)








Lemma annotated_row_cells pep_dict (r : row) :
  cell (annotated_row pep_dict r) "pg_global_qvalue"
  = default VNull (protein_global_qvalue_map !! cell r "mp_accessions")
  ∧ cell (annotated_row pep_dict r) "mp_accessions"
    = get_protein_accession (cell r "mp_accessions")
  ∧ cell (annotated_row pep_dict r) "peptidoform"
    = (generate_modifications_details (cell r "peptidoform")).1
  ∧ cell (annotated_row pep_dict r) "modifications"
    = (generate_modifications_details (cell r "peptidoform")).2.
Proof.
  unfold annotated_row. rewrite !cell_placeholders_row by solve_not_elem.
  unfold accession_row, modifications_row, scan_row, qvalue_row.
  repeat split; by cell_steps.
Qed.

Lemma annotated_row_other pep_dict (r : row) c :
  c ∉ annotation_columns → c ∉ placeholder_columns →
  annotated_row pep_dict r !! c = r !! c.
Proof.
  intros Ha Hp. unfold annotated_row, placeholders_row, placeholder_columns.
  cbn [foldl]. unfold accession_row, modifications_row, scan_row, qvalue_row.
  rewrite !lookup_insert_ne; [done|..]; intros <-;
    first [apply Ha; solve_elem | apply Hp; solve_elem].
Qed.

(** X7 (feature.py, Feature.add_additional_msg): every value the function
    computes is read from the batch as it was passed in, although the
    function rewrites [peptidoform] and [mp_accessions] on its way.  In each
    row of the returned batch the protein q-value is the entry of the
    accession as the merge left it, before [get_protein_accession] rewrote
    it, and the best scan is the entry of the peptidoform as it was before
    the modifications were parsed out of it; the columns the function does
    not name are untouched and no row is added or dropped. *)
Theorem add_additional_msg_reads_original_cells
    (msstats out : DataFrame) (pep_dict : pydict) :
  add_additional_msg msstats pep_dict = Ok out →
  length (rows out) = length (rows msstats)
  ∧ ∀ n r, rows msstats !! n = Some r →
      ∃ r', rows out !! n = Some r'
        ∧ cell r' "pg_global_qvalue"
          = default VNull (protein_global_qvalue_map !! cell r "mp_accessions")
        ∧ cell r' "mp_accessions" = get_protein_accession (cell r "mp_accessions")
        ∧ (cell r' "scan_reference_file_name", cell r' "scan") = best_scan pep_dict r
        ∧ (cell r' "peptidoform", cell r' "modifications")
          = generate_modifications_details (cell r "peptidoform")
        ∧ ∀ c, c ∉ annotation_columns → c ∉ placeholder_columns → r' !! c = r !! c.
Proof.
  intros (_ & _ & _ & _ & Hrows)%add_additional_msg_inv. rewrite Hrows.
  split; [by rewrite length_fmap|]. intros n r Hr. exists (annotated_row pep_dict r).
  split; [by rewrite list_lookup_fmap, Hr|].
  destruct (annotated_row_cells pep_dict r) as (-> & -> & -> & ->).
  destruct (annotated_row_scan pep_dict r) as [-> ->].
  repeat split; try done.
  - by destruct (best_scan pep_dict r).
  - by destruct (generate_modifications_details _).
  - intros c. apply annotated_row_other.
Qed.


(** *** The unpartitioned writer *)

(** A loop over a list either gets through it or stops at its first
    failing element. *)
Lemma map_result_split {A B} (f : A → result B) l :
  (∃ bs, map_result f l = Ok bs)
  ∨ ∃ pre bad rest bs e, l = pre ++ bad :: rest ∧ map_result f pre = Ok bs ∧ f bad = Err e.
Proof.
  induction l as [|a l IH]; [left; by exists []|].
  destruct (f a) as [b|e] eqn:Ha.
  - destruct IH as [[bs Hbs]|(pre & bad & rest & bs & e & -> & Hpre & Hbad)].
    + left. exists (b :: bs). cbn [map_result]. by rewrite Ha, Hbs.
    + right. exists (a :: pre), bad, rest, (b :: bs), e. split; [done|].
      split; [|done]. cbn [map_result]. by rewrite Ha, Hpre.
  - right. by exists [], a, l, [], e.
Qed.

(** The steps of a computation in a given world. *)
Lemma io_bind_assoc {A B C} (m : io A) (f : A → io B) (g : B → io C) w :
  ((m ≫= f) ≫= g) w = (m ≫= (λ a, f a ≫= g)) w.
Proof. unfold mbind, io_bind. by destruct (m w) as [w' [a|e]]. Qed.

Lemma io_lift_Ok {A B} (r : result A) a (f : A → io B) w :
  r = Ok a → (lift r ≫= f) w = f a w.
Proof. by intros ->. Qed.

Lemma io_lift_Err {A B} (r : result A) e (f : A → io B) w :
  r = Err e → (lift r ≫= f) w = (w, Err e).
Proof. by intros ->. Qed.

Lemma io_emit {B} ev (f : unit → io B) w :
  (emit ev ≫= f) w
  = f tt {| trace := trace w ++ [ev]; duckdb := duckdb w; pqwriters := pqwriters w |}.
Proof. done. Qed.

Lemma io_set_duckdb {B} s (f : unit → io B) w :
  (set_duckdb s ≫= f) w
  = f tt {| trace := trace w; duckdb := s; pqwriters := pqwriters w |}.
Proof. done. Qed.

Lemma io_set_pqwriters {B} p (f : unit → io B) w :
  (set_pqwriters p ≫= f) w
  = f tt {| trace := trace w; duckdb := duckdb w; pqwriters := p |}.
Proof. done. Qed.

Lemma write_table_step acc feature w :
  pqwriters w = sink_of acc 0 →
  (opened ← pqwriter;
   _ ← (if opened is Some _ then mret tt else ParquetWriter);
   write_table feature) w
  = ({| trace := trace w; duckdb := duckdb w;
        pqwriters := sink_of (acc ++ [feature]) 0 |}, Ok tt).
Proof.
  intros Hw. unfold mbind, io_bind, pqwriter. rewrite Hw.
  destruct acc as [|a acc]; cbn [sink_of app].
  - rewrite lookup_empty. unfold ParquetWriter, write_table. cbn [trace duckdb pqwriters].
    rewrite Hw. cbn [sink_of]. rewrite alter_insert_eq. done.
  - rewrite lookup_singleton_eq. unfold mret, io_ret, write_table.
    rewrite Hw. cbn [sink_of]. by rewrite alter_singleton_eq.
Qed.

Lemma write_feature_batch_Ok map_dict pep_dict msstats feature acc w :
  feature_table map_dict pep_dict msstats = Ok feature →
  pqwriters w = sink_of acc 0 →
  write_feature_batch map_dict pep_dict msstats w
  = ({| trace := trace w ++ [BatchGenerated; BatchReported]; duckdb := duckdb w;
        pqwriters := sink_of (acc ++ [feature]) 0 |}, Ok tt).
Proof.
  unfold feature_table. intros (out & Hout & Hfeature)%bind_Ok Hw.
  unfold write_feature_batch.
  unfold mbind at 1, io_bind at 1, emit at 1.
  unfold mbind at 1, io_bind at 1, lift at 1. rewrite Hout.
  unfold mbind at 1, io_bind at 1, emit at 1.
  unfold mbind at 1, io_bind at 1, lift at 1. rewrite Hfeature.
  cbn [trace duckdb pqwriters].
  rewrite (write_table_step acc) by done. cbn [trace duckdb].
  by rewrite <- app_assoc.
Qed.

Lemma write_feature_batch_Err map_dict pep_dict msstats e acc w :
  feature_table map_dict pep_dict msstats = Err e →
  pqwriters w = sink_of acc 0 →
  ∃ w', write_feature_batch map_dict pep_dict msstats w = (w', Err e)
        ∧ duckdb w' = duckdb w ∧ pqwriters w' = sink_of acc 0.
Proof.
  unfold feature_table. intros He Hw. unfold write_feature_batch.
  unfold mbind at 1, io_bind at 1, emit at 1.
  unfold mbind at 1, io_bind at 1, lift at 1.
  destruct (feature_report_batch _ _ _) as [out|e'] eqn:Hout;
    cbn [mbind result_bind] in He.
  - unfold mbind at 1, io_bind at 1, emit at 1.
    unfold mbind at 1, io_bind at 1, lift at 1. rewrite He. by eexists.
  - injection He as ->. by eexists.
Qed.

Lemma write_batches_Ok map_dict pep_dict batches tables acc w :
  map_result (feature_table map_dict pep_dict) batches = Ok tables →
  pqwriters w = sink_of acc 0 →
  for_each batches (write_feature_batch map_dict pep_dict) w
  = ({| trace := trace w ++ batch_events (length batches); duckdb := duckdb w;
        pqwriters := sink_of (acc ++ tables) 0 |}, Ok tt).
Proof.
  revert tables acc w. induction batches as [|msstats batches IH]; intros tables acc w.
  - intros [= <-] Hw. cbn. rewrite !app_nil_r, <- Hw. by destruct w.
  - cbn [map_result]. intros (feature & Hf & (rest & Hrest & [= <-])%bind_Ok)%bind_Ok Hw.
    cbn [for_each]. unfold mbind at 1, io_bind at 1.
    rewrite (write_feature_batch_Ok _ _ _ feature acc) by done.
    rewrite (IH rest (acc ++ [feature])) by done. cbn [trace duckdb length].
    unfold batch_events. cbn [replicate concat].
    by rewrite <- !app_assoc.
Qed.

Lemma write_batches_Err map_dict pep_dict pre bad rest tables e acc w :
  map_result (feature_table map_dict pep_dict) pre = Ok tables →
  feature_table map_dict pep_dict bad = Err e →
  pqwriters w = sink_of acc 0 →
  ∃ w', for_each (pre ++ bad :: rest) (write_feature_batch map_dict pep_dict) w
        = (w', Err e)
        ∧ duckdb w' = duckdb w ∧ pqwriters w' = sink_of (acc ++ tables) 0.
Proof.
  revert tables acc w. induction pre as [|msstats pre IH]; intros tables acc w.
  - intros [= <-] Hbad Hw. cbn [app for_each]. unfold mbind at 1, io_bind at 1.
    destruct (write_feature_batch_Err _ _ _ _ acc w Hbad Hw) as (w' & -> & Hdb & Hsink).
    exists w'. by rewrite app_nil_r.
  - cbn [map_result].
    intros (feature & Hf & (tl & Htl & [= <-])%bind_Ok)%bind_Ok Hbad Hw.
    cbn [app for_each]. unfold mbind at 1, io_bind at 1.
    rewrite (write_feature_batch_Ok _ _ _ feature acc) by done.
    destruct (IH tl (acc ++ [feature])
                {| trace := trace w ++ [BatchGenerated; BatchReported];
                   duckdb := duckdb w; pqwriters := sink_of (acc ++ [feature]) 0 |}
                Htl Hbad eq_refl) as (w' & -> & Hdb & Hsink).
    exists w'. split; [done|]. split; [done|]. by rewrite <- app_assoc in Hsink.
Qed.

(** The run of [write_feature_to_file] once the first extraction is done. *)
Lemma write_feature_to_file_unfold psm msstats_in dicts w :
  extract_psm_msg psm = Ok dicts →
  write_feature_to_file psm msstats_in w
  = (_ ← for_each msstats_in (write_feature_batch dicts.1 dicts.2);
     _ ← destroy_duckdb_database;
     opened ← pqwriter;
     if opened is Some _ then close_file else mret tt)
      {| trace := trace w ++ [PsmExtracted; PsmExtracted; DuckdbCreated];
         duckdb := DbLive; pqwriters := ∅ |}.
Proof.
  intros Hpsm. unfold write_feature_to_file, generate_feature, generate_feature_report,
    transform_msstats_in, MsstatsIN.
  rewrite io_set_pqwriters, (io_lift_Ok _ dicts), io_emit by done.
  rewrite io_bind_assoc, (io_lift_Ok _ dicts), io_bind_assoc, io_emit by done.
  rewrite !io_bind_assoc, io_emit, io_set_duckdb. cbn [trace duckdb pqwriters].
  rewrite <- !app_assoc. cbn [app]. rewrite io_bind_assoc. done.
Qed.

Lemma close_sink_of tables w :
  pqwriters w = sink_of tables 0 →
  (opened ← pqwriter; if opened is Some _ then close_file else mret tt) w
  = ({| trace := trace w; duckdb := duckdb w; pqwriters := sink_of tables 1 |}, Ok tt).
Proof.
  intros Hw. unfold mbind, io_bind, pqwriter. rewrite Hw.
  destruct tables as [|a tables]; cbn [sink_of].
  - rewrite lookup_empty. unfold mret, io_ret. cbn [sink_of] in Hw. rewrite <- Hw.
    by destruct w.
  - rewrite lookup_singleton_eq. unfold close_file. rewrite Hw. cbn [sink_of].
    by rewrite map_fmap_singleton.
Qed.

(** X9 (feature.py, Feature.write_feature_to_file and Feature.generate_feature):
    when the PSM extraction and every batch go through, the run returns with
    one file that holds the table of every quantification batch, in the
    order of the stream, closed once, and with the database destroyed; on a
    stream with no batch it returns without having opened a file.  The PSM
    table is extracted twice, once by the writer itself and once by the
    generator it drives. *)
Theorem write_feature_to_file_writes_every_batch
    (psm : Psm) (msstats_in : list DataFrame) (dicts : pydict * pydict)
    (tables : list DataFrame) (w : world) :
  extract_psm_msg psm = Ok dicts →
  map_result (feature_table dicts.1 dicts.2) msstats_in = Ok tables →
  write_feature_to_file psm msstats_in w
  = ({| trace := trace w ++ [PsmExtracted; PsmExtracted; DuckdbCreated]
                   ++ batch_events (length msstats_in) ++ [DuckdbDestroyed];
        duckdb := DbDestroyed;
        pqwriters := match tables with
                     | [] => ∅
                     | _ => {[ output_path := {| written := tables; closes := 1 |} ]}
                     end |}, Ok tt).
Proof.
  intros Hpsm Htables. rewrite (write_feature_to_file_unfold _ _ dicts) by done.
  unfold mbind at 1, io_bind at 1.
  rewrite (write_batches_Ok _ _ _ tables []) by done. cbn [trace duckdb app].
  unfold destroy_duckdb_database. rewrite io_bind_assoc, io_emit, io_set_duckdb.
  rewrite (close_sink_of tables) by done. cbn [trace duckdb pqwriters].
  by rewrite <- !app_assoc.
Qed.

(** X10 (feature.py, Feature.write_feature_to_file): a batch that fails
    aborts the run with the error of that batch and nothing is cleaned up.
    The file holds the tables of the batches before the failing one and was
    never closed, no file exists when the first batch fails, and the
    database is still live; no later batch is looked at. *)
Theorem write_feature_to_file_abort_leaves_partial_file
    (psm : Psm) (pre : list DataFrame) (bad : DataFrame) (rest : list DataFrame)
    (dicts : pydict * pydict) (tables : list DataFrame) (e : error) (w : world) :
  extract_psm_msg psm = Ok dicts →
  map_result (feature_table dicts.1 dicts.2) pre = Ok tables →
  feature_table dicts.1 dicts.2 bad = Err e →
  ∃ w', write_feature_to_file psm (pre ++ bad :: rest) w = (w', Err e)
        ∧ duckdb w' = DbLive
        ∧ pqwriters w' = match tables with
                         | [] => ∅
                         | _ => {[ output_path := {| written := tables; closes := 0 |} ]}
                         end.
Proof.
  intros Hpsm Htables Hbad. rewrite (write_feature_to_file_unfold _ _ dicts) by done.
  unfold mbind at 1, io_bind at 1.
  edestruct (write_batches_Err dicts.1 dicts.2 pre bad rest tables e [])
    as (w' & -> & Hdb & Hsink); [done..|reflexivity|].
  by exists w'.
Qed.

(** X11 (feature.py, Feature.write_feature_to_file): the run returns exactly
    when the PSM extraction returns and every quantification batch can be
    merged, annotated, converted and turned into a table. *)
Theorem write_feature_to_file_returns_iff
    (psm : Psm) (msstats_in : list DataFrame) (w : world) :
  (∃ w', write_feature_to_file psm msstats_in w = (w', Ok tt))
  ↔ ∃ dicts tables,
      extract_psm_msg psm = Ok dicts
      ∧ map_result (feature_table dicts.1 dicts.2) msstats_in = Ok tables.
Proof.
  split.
  - intros [w' Hrun]. destruct (extract_psm_msg psm) as [dicts|e] eqn:Hpsm.
    + exists dicts.
      destruct (map_result_split (feature_table dicts.1 dicts.2) msstats_in)
        as [[tables Ht]|(pre & bad & rest & tables & e & -> & Hpre & Hbad)].
      * by exists tables.
      * assert (∃ w'', write_feature_to_file psm (pre ++ bad :: rest) w = (w'', Err e))
          as [w'' Hw''].
        { rewrite (write_feature_to_file_unfold _ _ dicts) by done.
          unfold mbind at 1, io_bind at 1.
          edestruct (write_batches_Err dicts.1 dicts.2 pre bad rest tables e [])
            as (w'' & -> & _); [done..|reflexivity|].
          by exists w''. }
        congruence.
    + unfold write_feature_to_file in Hrun.
      rewrite io_set_pqwriters, (io_lift_Err _ e) in Hrun by done. done.
  - intros (dicts & tables & Hpsm & Ht).
    rewrite (write_feature_to_file_unfold _ _ dicts) by done.
    unfold mbind at 1, io_bind at 1.
    rewrite (write_batches_Ok _ _ _ tables []) by done.
    unfold destroy_duckdb_database. rewrite io_bind_assoc, io_emit, io_set_duckdb.
    rewrite (close_sink_of tables) by done. by eexists.
Qed.

(** *** The partitioned writer *)

Lemma write_slice_Ok g feature w :
  transform_feature g.2 = Ok feature →
  ∃ w', write_slice g w = (w', Ok tt)
        ∧ duckdb w' = duckdb w
        ∧ pqwriters w' = save_table (pqwriters w) (g.1, feature).
Proof.
  intros Hf. unfold write_slice. rewrite (io_lift_Ok _ feature), io_emit by done.
  unfold save_slice_file. cbn [trace duckdb pqwriters]. by eexists.
Qed.

Lemma write_slices_Ok groups kts w :
  map_result (λ g, feature ← transform_feature g.2; Ok (g.1, feature)) groups = Ok kts →
  ∃ w', for_each groups write_slice w = (w', Ok tt)
        ∧ duckdb w' = duckdb w
        ∧ pqwriters w' = foldl save_table (pqwriters w) kts.
Proof.
  revert kts w. induction groups as [|g groups IH]; intros kts w.
  - intros [= <-]. by exists w.
  - cbn [map_result].
    intros (kt & (feature & Hf & [= <-])%bind_Ok & (rest & Hrest & [= <-])%bind_Ok)%bind_Ok.
    cbn [for_each]. unfold mbind at 1, io_bind at 1.
    destruct (write_slice_Ok g feature w Hf) as (w1 & -> & Hdb1 & Hp1).
    destruct (IH rest w1 Hrest) as (w2 & -> & Hdb2 & Hp2).
    exists w2. split; [done|]. split; [congruence|]. cbn [foldl]. by rewrite <- Hp1.
Qed.

Lemma write_slices_batch_Ok map_dict pep_dict partitions msstats kts w :
  slice_tables map_dict pep_dict partitions msstats = Ok kts →
  ∃ w', write_slices_batch map_dict pep_dict partitions msstats w = (w', Ok tt)
        ∧ duckdb w' = duckdb w
        ∧ pqwriters w' = foldl save_table (pqwriters w) kts.
Proof.
  unfold slice_tables.
  intros (out & Hout & (groups & Hgroups & Hkts)%bind_Ok)%bind_Ok.
  unfold write_slices_batch.
  rewrite io_emit, (io_lift_Ok _ out), io_emit, (io_lift_Ok _ groups) by done.
  match goal with
  | |- ∃ _, for_each _ _ ?w0 = _ ∧ _ =>
      destruct (write_slices_Ok groups kts w0 Hkts) as (w' & Hrun & Hdb & Hp)
  end.
  exists w'. by rewrite Hrun.
Qed.

Lemma write_slices_batches_Ok map_dict pep_dict partitions batches slices w :
  map_result (slice_tables map_dict pep_dict partitions) batches = Ok slices →
  ∃ w', for_each batches (write_slices_batch map_dict pep_dict partitions) w = (w', Ok tt)
        ∧ duckdb w' = duckdb w
        ∧ pqwriters w' = foldl save_table (pqwriters w) (concat slices).
Proof.
  revert slices w. induction batches as [|msstats batches IH]; intros slices w.
  - intros [= <-]. by exists w.
  - cbn [map_result]. intros (kts & Hkts & (rest & Hrest & [= <-])%bind_Ok)%bind_Ok.
    cbn [for_each]. unfold mbind at 1, io_bind at 1.
    destruct (write_slices_batch_Ok _ _ _ _ _ w Hkts) as (w1 & -> & Hdb1 & Hp1).
    destruct (IH rest w1 Hrest) as (w2 & -> & Hdb2 & Hp2).
    exists w2. split; [done|]. split; [congruence|].
    cbn [concat]. by rewrite foldl_app, <- Hp1.
Qed.

(** Under each key, the saved tables are appended to what the sink held. *)
Lemma lookup_foldl_save_table (kts : list (list value * DataFrame))
    (m : gmap (list value) writer) (k : list value) :
  foldl save_table m kts !! k
  = match tables_of k kts with
    | [] => m !! k
    | ts => Some {| written := written (default no_writer (m !! k)) ++ ts;
                    closes := closes (default no_writer (m !! k)) |}
    end.
Proof.
  revert m. induction kts as [|[k' t] kts IH]; intros m; [done|].
  cbn [foldl]. rewrite IH. unfold tables_of. rewrite filter_cons. cbn [fst].
  unfold save_table at 1 2 3. cbn [fst snd]. fold no_writer.
  destruct (decide (k' = k)) as [->|Hk].
  - rewrite fmap_cons. cbn [snd]. rewrite !lookup_insert_eq. cbn [default from_option id written closes].
    destruct ((filter _ kts).*2) as [|t' ts]; [done|]. by rewrite <- app_assoc.
  - by rewrite !lookup_insert_ne by done.
Qed.

Lemma write_features_to_file_unfold partitions psm msstats_in dicts n w :
  extract_psm_msg psm = Ok dicts → len partitions = Ok n →
  write_features_to_file partitions psm msstats_in w
  = (_ ← for_each msstats_in (write_slices_batch dicts.1 dicts.2 partitions);
     _ ← destroy_duckdb_database;
     close_file)
      {| trace := trace w ++ [PsmExtracted; PsmExtracted; DuckdbCreated];
         duckdb := DbLive; pqwriters := ∅ |}.
Proof.
  intros Hpsm Hlen. unfold write_features_to_file, generate_slice_feature,
    generate_feature_report, transform_msstats_in, MsstatsIN.
  rewrite io_set_pqwriters, (io_lift_Ok _ dicts), io_emit, (io_lift_Ok _ n) by done.
  rewrite io_bind_assoc, (io_lift_Ok _ dicts), io_bind_assoc, io_emit by done.
  rewrite !io_bind_assoc, io_emit, io_set_duckdb. cbn [trace duckdb pqwriters].
  rewrite <- !app_assoc. cbn [app]. rewrite io_bind_assoc. done.
Qed.

(** X12 (feature.py, Feature.write_features_to_file and
    Feature.generate_slice_feature): when the PSM extraction and every batch
    go through, the partitioned run returns with the database destroyed and
    one file per partition key that occurs in some batch.  The file of a key
    holds the tables of that key, one for each batch the key occurs in and
    in the order of the stream, and has been closed once; no table is lost,
    written twice or written to the file of another key. *)
Theorem write_features_to_file_routes_every_slice
    (partitions : pyobj) (psm : Psm) (msstats_in : list DataFrame)
    (dicts : pydict * pydict) (n : nat)
    (slices : list (list (list value * DataFrame))) (w : world) :
  extract_psm_msg psm = Ok dicts → len partitions = Ok n →
  map_result (slice_tables dicts.1 dicts.2 partitions) msstats_in = Ok slices →
  ∃ w', write_features_to_file partitions psm msstats_in w = (w', Ok tt)
        ∧ duckdb w' = DbDestroyed
        ∧ ∀ k, pqwriters w' !! k
               = match tables_of k (concat slices) with
                 | [] => None
                 | ts => Some {| written := ts; closes := 1 |}
                 end.
Proof.
  intros Hpsm Hlen Hslices.
  rewrite (write_features_to_file_unfold _ _ _ dicts n) by done.
  unfold mbind at 1, io_bind at 1.
  edestruct (write_slices_batches_Ok dicts.1 dicts.2 partitions msstats_in slices)
    as (w1 & -> & Hdb1 & Hp1); [done|].
  unfold destroy_duckdb_database. rewrite io_bind_assoc, io_emit, io_set_duckdb.
  unfold close_file. cbn [trace duckdb pqwriters]. eexists. split; [done|].
  cbn [duckdb pqwriters]. split; [done|]. intros k.
  rewrite lookup_fmap, Hp1. cbn [pqwriters]. rewrite lookup_foldl_save_table.
  rewrite lookup_empty. cbn [default from_option id no_writer written closes app].
  by destruct (tables_of k (concat slices)).
Qed.

(** *** The errors of [slice] *)

(** X13 (feature.py, Feature.slice): the checks of [slice] in the order they
    run.  An argument that is no list is refused first, with its text in the
    message, whatever the batch holds, so the name of a column passed as a
    string is refused although the list of that name is accepted; the empty
    list is refused next; then the first name of the list, in the order of
    the list, that is no column of the batch is reported, and later missing
    names are not.  A list that gets through these checks is always
    accepted. *)
Theorem slice_checks_in_order (df : DataFrame) :
  slice df PyNone = Err (Exception "None is not a list")
  ∧ (∀ s, slice df (PyStr s) = Err (Exception (s ++ " is not a list")%string))
  ∧ slice df (PyList []) = Err (Exception "[] is empty")
  ∧ (∀ pre c post, pre ⊆ columns df → c ∉ columns df →
       slice df (PyList (pre ++ c :: post)) = Err (Exception (c ++ " does not exist")%string))
  ∧ (∀ l, l ≠ [] → l ⊆ columns df →
       slice df (PyList l) = Ok ((λ k, (k, group_of l df k)) <$> group_keys l df)).
Proof.
  split; [done|]. split; [done|]. split; [done|]. split.
  - intros pre c post Hpre Hc. cbn [slice].
    rewrite bool_decide_eq_false_2 by (rewrite length_app; simpl; lia).
    destruct (list_find _ _) as [[i c']|] eqn:Hfind.
    + apply list_find_Some in Hfind as (Hi & Hc' & Hfirst).
      destruct (lt_eq_lt_dec i (length pre)) as [[Hlt|Heq]|Hgt].
      * rewrite lookup_app_l in Hi by done. destruct Hc'. apply Hpre.
        by eapply list_elem_of_lookup_2.
      * subst i. rewrite list_lookup_middle in Hi by done. by injection Hi as <-.
      * destruct (Hfirst (length pre) c); [by rewrite list_lookup_middle|done|done].
    + eapply list_find_None, Forall_forall in Hfind; [by destruct Hfind|].
      apply elem_of_app. right. by left.
  - intros l Hl Hcols. cbn [slice].
    rewrite bool_decide_eq_false_2 by (by destruct l).
    destruct (list_find _ l) as [[i c]|] eqn:Hfind.
    + apply list_find_Some in Hfind as (Hi & Hc & _). destruct Hc. apply Hcols.
      by eapply list_elem_of_lookup_2.
    + by apply groupby_Ok.
Qed.


(** *** What the pipeline leaves alone *)

Lemma merged_row_other map_dict (r : row) c :
  c ∉ map_features → merged_row map_dict r !! c = r !! c.
Proof.
  intros Hc. unfold merged_row.
  rewrite !lookup_insert_ne; [done|..]; intros <-; apply Hc; solve_elem.
Qed.

(** X17 (feature.py, Feature.generate_feature_report with
    Feature.merge_msstats_and_psm, Feature.add_additional_msg and
    Feature.convert_to_parquet_format): a batch goes through the three
    stages row by row.  The batch [generate_feature_report] yields has as
    many rows as the quantification batch, in the same order, and every cell
    of a column that none of the stages names, the intensity for one, is the
    cell of the quantification row. *)
Theorem feature_report_batch_passes_through
    (map_dict pep_dict : pydict) (msstats out : DataFrame) :
  feature_report_batch map_dict pep_dict msstats = Ok out →
  length (rows out) = length (rows msstats)
  ∧ ∀ n r, rows msstats !! n = Some r →
      ∃ r', rows out !! n = Some r'
        ∧ ∀ c, c ∉ map_features → c ∉ annotation_columns → c ∉ placeholder_columns →
               c ∉ converted_columns → r' !! c = r !! c.
Proof.
  intros (merged & annotated & Hmerged & _ & _ & _ & Hrows)%feature_report_batch_inv.
  apply merge_msstats_and_psm_inv in Hmerged as [_ Hm]. rewrite Hrows, Hm.
  rewrite <- list_fmap_compose. split; [by rewrite length_fmap|].
  intros n r Hr. eexists. split; [by rewrite list_lookup_fmap, Hr|].
  intros c H1 H2 H3 H4. unfold compose.
  rewrite convert_row_other, annotated_row_other, merged_row_other by done. done.
Qed.

(** *** Failures before the database is set up *)

(** X18 (feature.py, Feature.write_feature_to_file and
    Feature.write_features_to_file): both writers extract the PSM index
    before anything else.  When the extraction raises, the writer raises the
    same error and has neither set up the duckdb database nor opened a file,
    whatever the stream of batches and the partition argument are. *)
Theorem writers_fail_before_setup
    (partitions : pyobj) (psm : Psm) (msstats_in : list DataFrame) (e : error) (w : world) :
  extract_psm_msg psm = Err e →
  write_feature_to_file psm msstats_in w
  = ({| trace := trace w; duckdb := duckdb w; pqwriters := ∅ |}, Err e)
  ∧ write_features_to_file partitions psm msstats_in w
    = ({| trace := trace w; duckdb := duckdb w; pqwriters := ∅ |}, Err e).
Proof.
  intros Hpsm. unfold write_feature_to_file, write_features_to_file.
  by rewrite !io_set_pqwriters, !(io_lift_Err _ e).
Qed.

End Feature.


(** * The pipeline on the example inputs *)

Local Open Scope list_scope.

(** Equations between values that hold finite maps are decided by
    evaluation of the decision procedure. *)
Ltac compute_eq :=
  lazymatch goal with
  | |- ?l = ?r => apply (bool_decide_eq_true_1 (l = r)); vm_compute; reflexivity
  end.

(** A decidable proposition is settled by evaluation of its decision. *)
Ltac compute_prop :=
  lazymatch goal with
  | |- ?P => apply (bool_decide_eq_true_1 P); vm_compute; reflexivity
  end.

Lemma returned_Ok {A} (d : A) (r : result A) : is_ok r = true → r = Ok (returned d r).
Proof. by destruct r. Qed.

Abbreviation example_extract := (extract_psm_msg example_sort parse_decimal).

Abbreviation example_batch :=
  (feature_report_batch parse_decimal example_str_num example_str_obj
     example_qvalue_map example_modifications example_accession).

Abbreviation example_convert :=
  (convert_to_parquet_format parse_decimal example_str_num example_str_obj).

Abbreviation example_slice_feature :=
  (generate_slice_feature example_sort parse_decimal parse_decimal example_str_num
     example_str_obj example_qvalue_map example_modifications example_accession
     example_table).

Abbreviation example_write :=
  (write_features_to_file example_sort parse_decimal parse_decimal example_str_num
     example_str_obj example_qvalue_map example_modifications example_accession
     example_table).

Lemma example_sort_perm ks : example_sort ks ≡ₚ ks.
Proof. done. Qed.



(** The extractor on the example table: for (fileA, PEP(ox)TIDE, 2) the row
    of probability 0.01 of the first chunk is kept, not the equal one of the
    second chunk; for (fileB, PEPTIDE, 3) the row of the second chunk. *)
Lemma example_extract_result :
  example_extract example_psm = Ok (example_map_dict, extract_from_pep example_psm).
Proof. compute_eq. Qed.


Lemma example_msstats_columns : psm_columns ⊆ columns example_msstats.
Proof. intros c Hc. unfold psm_columns in Hc. cbn. set_solver. Qed.

Lemma example_map_dict_tuples k t : example_map_dict !! k = Some t → length t = 7.
Proof.
  unfold example_map_dict.
  intros [[_ <-]|[_ [_ <-]%lookup_singleton_Some]]%lookup_insert_Some; done.
Qed.

(** Witness of C2 on the example batch: two rows in, two rows out; the row
    of the unseen peptidoform gets seven nulls. *)
Lemma merge_msstats_and_psm_lookup_join_witness :
  psm_columns ⊆ columns example_msstats
  ∧ (∀ k t, example_map_dict !! k = Some t → length t = 7)
  ∧ ∃ out r',
      merge_msstats_and_psm example_msstats example_map_dict = Ok out
      ∧ length (rows out) = 2
      ∧ rows out !! 1 = Some r'
      ∧ cell r' <$> map_features = replicate 7 VNull.
Proof.
  split; [exact example_msstats_columns|]. split; [exact example_map_dict_tuples|].
  destruct (merge_msstats_and_psm_lookup_join example_msstats example_map_dict
              example_msstats_columns example_map_dict_tuples)
    as (out & Hout & Hlen & Hrows).
  destruct (Hrows 1 (quant_row "fileB" "UNSEEN" 2 (VStr "n/a")) eq_refl)
    as (r' & Hr' & _ & Hnull).
  exists out, r'. repeat split; try done.
Defined.

Lemma example_partition_columns : ["reference_file_name"] ⊆ columns example_msstats.
Proof. intros c Hc. cbn. set_solver. Qed.

(** Witness of the amended C3 on the example batch, cut by reference file. *)
Lemma slice_groups_partition_non_null_rows_witness :
  ["reference_file_name"] ≠ []
  ∧ ["reference_file_name"] ⊆ columns example_msstats
  ∧ ∃ groups,
      slice example_sort example_msstats (PyList ["reference_file_name"]) = Ok groups
      ∧ NoDup groups.*1
      ∧ concat ((λ g, rows g.2) <$> groups)
        ≡ₚ filter (λ r, VNull ∉ key_of ["reference_file_name"] r) (rows example_msstats).
Proof.
  split; [done|]. split; [exact example_partition_columns|].
  destruct (slice_groups_partition_non_null_rows example_sort example_sort_perm
              example_msstats ["reference_file_name"])
    as (groups & Hgroups & Hnd & _ & Hperm); [done|exact example_partition_columns|].
  by exists groups.
Defined.

(** Counterexample to C3 as stated: the second row of the batch has no
    reference file; [slice] yields one group, and the row is in no group. *)
Lemma slice_drops_rows_with_null_partition :
  ∃ groups r,
    slice example_sort example_null_partition (PyList ["reference_file_name"]) = Ok groups
    ∧ rows example_null_partition !! 1 = Some r
    ∧ cell r "reference_file_name" = VNull
    ∧ r ∉ concat ((λ g, rows g.2) <$> groups).
Proof.
  exists (returned []
            (slice example_sort example_null_partition (PyList ["reference_file_name"]))),
         (<["reference_file_name" := VNull]> (quant_row "fileA" "PEPTIDE" 3 (num 1))).
  split; [apply returned_Ok; vm_compute; reflexivity|]. split; [reflexivity|].
  split; [vm_compute; reflexivity|]. compute_prop.
Qed.

(** Counterexample to C4 as stated: the second batch lacks [unique], so
    [convert_to_parquet_format] raises while the first batch has been
    written.  When the error reaches the caller the duckdb database is still
    live and the sink of file A has not been closed. *)
Lemma write_features_to_file_abort_releases_nothing :
  ∃ w s,
    example_write (PyList ["reference_file_name"]) example_psm
      [example_msstats; example_msstats_no_unique] initial_world
    = (w, Err (KeyError "unique"))
    ∧ duckdb w = DbLive
    ∧ pqwriters w !! [VStr "fileA"] = Some s
    ∧ length (written s) = 1 ∧ closes s = 0.
Proof.
  set (run := example_write (PyList ["reference_file_name"]) example_psm
                [example_msstats; example_msstats_no_unique] initial_world).
  assert (run.2 = Err (KeyError "unique")) as Hr by (vm_compute; reflexivity).
  assert (is_Some (pqwriters run.1 !! [VStr "fileA"])) as [s Hs] by compute_prop.
  assert (length (written (default no_writer (pqwriters run.1 !! [VStr "fileA"]))) = 1
          ∧ closes (default no_writer (pqwriters run.1 !! [VStr "fileA"])) = 0) as Hw
    by (split; vm_compute; reflexivity).
  rewrite Hs in Hw. exists run.1, s. split; [rewrite <- Hr; by destruct run|].
  split; [vm_compute; reflexivity|]. by split.
Qed.

(** A run that returns: both sinks closed once, the database destroyed. *)
Lemma write_features_to_file_return_example :
  ∃ w sa sb,
    example_write (PyList ["reference_file_name"]) example_psm [example_msstats]
      initial_world = (w, Ok tt)
    ∧ duckdb w = DbDestroyed
    ∧ pqwriters w !! [VStr "fileA"] = Some sa ∧ closes sa = 1
    ∧ pqwriters w !! [VStr "fileB"] = Some sb ∧ closes sb = 1.
Proof.
  set (run := example_write (PyList ["reference_file_name"]) example_psm
                [example_msstats] initial_world).
  assert (run.2 = Ok tt) as Hr by (vm_compute; reflexivity).
  assert (is_Some (pqwriters run.1 !! [VStr "fileA"])) as [sa Hsa] by compute_prop.
  assert (is_Some (pqwriters run.1 !! [VStr "fileB"])) as [sb Hsb] by compute_prop.
  assert (closes (default no_writer (pqwriters run.1 !! [VStr "fileA"])) = 1) as Ha
    by (vm_compute; reflexivity).
  assert (closes (default no_writer (pqwriters run.1 !! [VStr "fileB"])) = 1) as Hb
    by (vm_compute; reflexivity).
  rewrite Hsa in Ha. rewrite Hsb in Hb. exists run.1, sa, sb.
  split; [rewrite <- Hr; by destruct run|]. split; [vm_compute; reflexivity|].
  by repeat split.
Qed.






(** C7 on the example batch: the second row has a peptidoform the
    peptide-level index does not know; [generate_best_scan] returns nulls for
    it, and [convert_to_parquet_format] turns them into the string ["None"].
    The first row, whose pair is in the index, carries the stored file name
    and scan id. *)
Theorem generate_feature_report_unmatched_scan_is_string :
  ∃ out r0 r1,
    example_batch example_map_dict (extract_from_pep example_psm) example_msstats = Ok out
    ∧ rows out = [r0; r1]
    ∧ extract_from_pep example_psm !! [VStr "UNSEEN"; num 2] = None
    ∧ cell r1 "scan" = VStr "None"
    ∧ cell r1 "scan_reference_file_name" = VStr "None"
    ∧ cell r1 "scan" ≠ VNull
    ∧ cell r0 "scan" = VStr "17"
    ∧ cell r0 "scan_reference_file_name" = VStr "fileA".
Proof.
  set (out := returned no_frame
                (example_batch example_map_dict (extract_from_pep example_psm)
                   example_msstats)).
  exists out, (default ∅ (rows out !! 0)), (default ∅ (rows out !! 1)).
  split; [apply returned_Ok; vm_compute; reflexivity|]. split; [compute_prop|].
  split; [vm_compute; reflexivity|].
  repeat split; try (vm_compute; reflexivity). vm_compute. discriminate.
Qed.

(** A batch without [unique] makes [convert_to_parquet_format] raise. *)
Lemma convert_to_parquet_format_no_unique_example :
  example_convert example_msstats_no_unique = Err (KeyError "unique").
Proof. compute_eq. Qed.

(** ** The further results on the example inputs *)

Abbreviation example_annotate :=
  (add_additional_msg example_long_qvalue_map example_strip_modifications
     example_short_accession).

Abbreviation example_feature_table :=
  (feature_table parse_decimal example_str_num example_str_obj example_qvalue_map
     example_modifications example_accession example_table).

Abbreviation example_slice_tables :=
  (slice_tables example_sort parse_decimal example_str_num example_str_obj
     example_qvalue_map example_modifications example_accession example_table).

Abbreviation example_write_file :=
  (write_feature_to_file example_sort parse_decimal parse_decimal example_str_num
     example_str_obj example_qvalue_map example_modifications example_accession
     example_table).




(** Witness of X4: the charge 5/2 of the second row. *)
Lemma convert_to_parquet_format_bad_Int32_raises_witness :
  "scan" ∉ columns example_fractional_charge
  ∧ example_convert example_fractional_charge = Err TypeError.
Proof.
  split; [compute_prop|].
  apply (convert_to_parquet_format_bad_Int32_raises parse_decimal example_str_num
           example_str_obj example_fractional_charge
           (<["precursor_charge" := frac 5 2]> (quant_row "fileA" "PEPTIDE" 3 (num 1)))
           "precursor_charge").
  - compute_prop.
  - right. left.
  - compute_prop.
  - compute_prop.
  - intros H. vm_compute in H. discriminate H.
Defined.

(** Witness of X5 on the batch with unparsable values. *)
Lemma convert_to_parquet_format_idempotent_witness :
  ∃ out, example_convert example_unparsable = Ok out ∧ example_convert out = Ok out.
Proof.
  set (out := returned no_frame (example_convert example_unparsable)).
  assert (example_convert example_unparsable = Ok out) as Hout
    by (apply returned_Ok; vm_compute; reflexivity).
  exists out. split; [exact Hout|].
  exact (convert_to_parquet_format_idempotent parse_decimal example_str_num
           example_str_obj example_unparsable out Hout).
Defined.

(** Witness of X7: the q-value is found under the long accession and the
    scan under the modified peptidoform, although the returned row holds the
    short accession and the stripped peptidoform. *)
Lemma add_additional_msg_reads_original_cells_witness :
  ∃ out r',
    example_annotate example_merged (extract_from_pep example_psm) = Ok out
    ∧ rows out !! 0 = Some r'
    ∧ cell r' "pg_global_qvalue" = frac 1 1000
    ∧ cell r' "mp_accessions" = VStr "P12345"
    ∧ cell r' "scan" = VStr "17"
    ∧ cell r' "peptidoform" = VStr "PEPTIDE".
Proof.
  set (out := returned no_frame
                (example_annotate example_merged (extract_from_pep example_psm))).
  assert (example_annotate example_merged (extract_from_pep example_psm) = Ok out) as Hout
    by (apply returned_Ok; vm_compute; reflexivity).
  destruct (add_additional_msg_reads_original_cells example_long_qvalue_map
              example_strip_modifications example_short_accession example_merged out
              (extract_from_pep example_psm) Hout) as [_ Hrows].
  destruct (Hrows 0 _ eq_refl) as (r' & Hr' & Hq & Hacc & Hscan & Hmod & _).
  exists out, r'. split; [exact Hout|]. split; [exact Hr'|].
  split; [rewrite Hq; vm_compute; reflexivity|].
  split; [exact Hacc|].
  split; [exact (f_equal snd Hscan)|exact (f_equal fst Hmod)].
Defined.


(** Witness of X9: a stream of two batches. *)
Lemma write_feature_to_file_writes_every_batch_witness :
  ∃ t,
    example_feature_table example_map_dict (extract_from_pep example_psm) example_msstats
    = Ok t
    ∧ example_write_file example_psm [example_msstats; example_msstats] initial_world
      = ({| trace := [PsmExtracted; PsmExtracted; DuckdbCreated; BatchGenerated;
                      BatchReported; BatchGenerated; BatchReported; DuckdbDestroyed];
            duckdb := DbDestroyed;
            pqwriters := {[ output_path := {| written := [t; t]; closes := 1 |} ]} |},
         Ok tt).
Proof.
  set (t := returned no_frame
              (example_feature_table example_map_dict (extract_from_pep example_psm)
                 example_msstats)).
  assert (example_feature_table example_map_dict (extract_from_pep example_psm)
            example_msstats = Ok t) as Ht
    by (apply returned_Ok; vm_compute; reflexivity).
  exists t. split; [exact Ht|].
  apply (write_feature_to_file_writes_every_batch example_sort parse_decimal parse_decimal
           example_str_num example_str_obj example_qvalue_map example_modifications
           example_accession example_table example_psm [example_msstats; example_msstats]
           (example_map_dict, extract_from_pep example_psm) [t; t] initial_world
           example_extract_result).
  cbn [map_result fst snd]. rewrite Ht. reflexivity.
Defined.

(** Witness of X10: the second batch lacks the column [unique]. *)
Lemma write_feature_to_file_abort_leaves_partial_file_witness :
  ∃ t w',
    example_write_file example_psm [example_msstats; example_msstats_no_unique; example_msstats]
      initial_world = (w', Err (KeyError "unique"))
    ∧ duckdb w' = DbLive
    ∧ pqwriters w' = {[ output_path := {| written := [t]; closes := 0 |} ]}.
Proof.
  set (t := returned no_frame
              (example_feature_table example_map_dict (extract_from_pep example_psm)
                 example_msstats)).
  assert (example_feature_table example_map_dict (extract_from_pep example_psm)
            example_msstats = Ok t) as Ht
    by (apply returned_Ok; vm_compute; reflexivity).
  assert (example_feature_table example_map_dict (extract_from_pep example_psm)
            example_msstats_no_unique = Err (KeyError "unique")) as Hbad by compute_eq.
  exists t.
  apply (write_feature_to_file_abort_leaves_partial_file example_sort parse_decimal
           parse_decimal example_str_num example_str_obj example_qvalue_map
           example_modifications example_accession example_table example_psm
           [example_msstats] example_msstats_no_unique [example_msstats]
           (example_map_dict, extract_from_pep example_psm) [t] (KeyError "unique")
           initial_world example_extract_result); [|exact Hbad].
  cbn [map_result fst snd]. rewrite Ht. reflexivity.
Defined.

(** Witness of X12: two batches cut by reference file; the file of file A
    holds two tables. *)
Lemma write_features_to_file_routes_every_slice_witness :
  ∃ w' ts,
    example_write (PyList ["reference_file_name"]) example_psm
      [example_msstats; example_msstats] initial_world = (w', Ok tt)
    ∧ duckdb w' = DbDestroyed
    ∧ pqwriters w' !! [VStr "fileA"] = Some {| written := ts; closes := 1 |}
    ∧ length ts = 2
    ∧ pqwriters w' !! [VStr "fileC"] = None.
Proof.
  set (slices := returned []
                   (map_result
                      (example_slice_tables example_map_dict (extract_from_pep example_psm)
                         (PyList ["reference_file_name"]))
                      [example_msstats; example_msstats])).
  assert (map_result
            (example_slice_tables example_map_dict (extract_from_pep example_psm)
               (PyList ["reference_file_name"]))
            [example_msstats; example_msstats] = Ok slices) as Hslices
    by (apply returned_Ok; vm_compute; reflexivity).
  destruct (write_features_to_file_routes_every_slice example_sort parse_decimal
              parse_decimal example_str_num example_str_obj example_qvalue_map
              example_modifications example_accession example_table
              (PyList ["reference_file_name"]) example_psm
              [example_msstats; example_msstats]
              (example_map_dict, extract_from_pep example_psm) 1 slices initial_world
              example_extract_result eq_refl Hslices) as (w' & Hrun & Hdb & Hsinks).
  exists w', (tables_of [VStr "fileA"] (concat slices)).
  split; [exact Hrun|]. split; [exact Hdb|].
  assert (length (tables_of [VStr "fileA"] (concat slices)) = 2) as Hlen
    by (vm_compute; reflexivity).
  assert (tables_of [VStr "fileC"] (concat slices) = []) as Hnone
    by (apply length_zero_iff_nil; vm_compute; reflexivity).
  split; [|split; [exact Hlen|]].
  - rewrite Hsinks. destruct (tables_of [VStr "fileA"] (concat slices)); [discriminate Hlen|].
    reflexivity.
  - rewrite Hsinks, Hnone. reflexivity.
Defined.

(** Witness of X17: the intensity of the first row of the example batch. *)
Lemma feature_report_batch_passes_through_witness :
  ∃ out r',
    example_batch example_map_dict (extract_from_pep example_psm) example_msstats = Ok out
    ∧ length (rows out) = 2
    ∧ rows out !! 0 = Some r'
    ∧ r' !! "intensity" = Some (num 1000).
Proof.
  set (out := returned no_frame
                (example_batch example_map_dict (extract_from_pep example_psm)
                   example_msstats)).
  assert (example_batch example_map_dict (extract_from_pep example_psm) example_msstats
          = Ok out) as Hout by (apply returned_Ok; vm_compute; reflexivity).
  destruct (feature_report_batch_passes_through parse_decimal example_str_num
              example_str_obj example_qvalue_map example_modifications example_accession
              example_map_dict (extract_from_pep example_psm) example_msstats out Hout)
    as [Hlen Hrows].
  destruct (Hrows 0 (quant_row "fileA" "PEP(ox)TIDE" 2 (num 1)) eq_refl) as (r' & Hr' & Hc).
  exists out, r'. split; [exact Hout|]. split; [exact Hlen|]. split; [exact Hr'|].
  rewrite (Hc "intensity"); [vm_compute; reflexivity|compute_prop..].
Defined.

(** Witness of X18: a PSM table without probabilities. *)
Lemma writers_fail_before_setup_witness :
  example_extract example_psm_no_probability
  = Err (KeyError "posterior_error_probability")
  ∧ example_write_file example_psm_no_probability [example_msstats] initial_world
    = (initial_world, Err (KeyError "posterior_error_probability"))
  ∧ example_write PyNone example_psm_no_probability [example_msstats] initial_world
    = (initial_world, Err (KeyError "posterior_error_probability")).
Proof.
  assert (example_extract example_psm_no_probability
          = Err (KeyError "posterior_error_probability")) as Hpsm by compute_eq.
  split; [exact Hpsm|].
  exact (writers_fail_before_setup example_sort parse_decimal parse_decimal
           example_str_num example_str_obj example_qvalue_map example_modifications
           example_accession example_table PyNone example_psm_no_probability
           [example_msstats] (KeyError "posterior_error_probability") initial_world Hpsm).
Defined.

(** * The [quantms] command *)

(** *** The project prefix *)

Lemma append_nil (b : string) : ("" ++ b)%string = b.
Proof. reflexivity. Qed.

Lemma append_cons x (a b : string) : (String x a ++ b)%string = String x (a ++ b)%string.
Proof. reflexivity. Qed.

Lemma string_app_assoc (a b c : string) : ((a ++ b) ++ c = a ++ b ++ c)%string.
Proof.
  induction a as [|x a IH]; [by rewrite !append_nil|].
  rewrite !append_cons. f_equal. apply IH.
Qed.

Lemma append_eq_nil (a b : string) : (a ++ b)%string = "" → a = "" ∧ b = "".
Proof. destruct a; [by rewrite append_nil|by rewrite append_cons]. Qed.

Lemma prefix_true (sep s : string) :
  String.prefix sep s = true ↔ ∃ r : string, s = (sep ++ r)%string.
Proof.
  revert s. induction sep as [|x sep IH]; intros s.
  - split; [intros _; by exists s|by destruct s].
  - destruct s as [|y s]; cbn [String.prefix].
    + split; [done|]. intros [r Hr]. by rewrite append_cons in Hr.
    + destruct (Ascii.ascii_dec x y) as [->|Hxy].
      * rewrite IH. split; intros [r Hr]; exists r.
        -- by rewrite append_cons, Hr.
        -- rewrite append_cons in Hr. by injection Hr.
      * split; [done|]. intros [r Hr]. rewrite append_cons in Hr. by injection Hr as -> _.
Qed.

Lemma split_head_nil sep : split_head sep "" = "".
Proof. cbn [split_head]. by destruct (String.prefix sep ""). Qed.

Lemma split_head_cons sep c s :
  split_head sep (String c s)
  = if String.prefix sep (String c s) then "" else String c (split_head sep s).
Proof. reflexivity. Qed.

Lemma split_head_prefix sep s : ∃ rest : string, s = (split_head sep s ++ rest)%string.
Proof.
  induction s as [|c s [rest IH]].
  - exists "". by rewrite split_head_nil.
  - rewrite split_head_cons. destruct (String.prefix sep (String c s)); [by eexists|].
    exists rest. rewrite append_cons. by rewrite <- IH.
Qed.

Lemma split_head_no_occurrence sep s : sep ≠ "" → ¬ occurs sep (split_head sep s).
Proof.
  intros Hsep. induction s as [|c s IH]; intros (a & b & Hab).
  - rewrite split_head_nil in Hab. symmetry in Hab.
    apply append_eq_nil in Hab as [_ Hab]. by apply append_eq_nil in Hab as [? _].
  - rewrite split_head_cons in Hab. destruct (String.prefix sep (String c s)) eqn:Hp.
    + symmetry in Hab. apply append_eq_nil in Hab as [_ Hab].
      by apply append_eq_nil in Hab as [? _].
    + destruct a as [|x a].
      * rewrite append_nil in Hab.
        destruct (split_head_prefix sep s) as [rest Hrest].
        assert (String.prefix sep (String c s) = true) as Hp'; [|congruence].
        apply prefix_true. exists (b ++ rest)%string.
        rewrite <- string_app_assoc, <- Hab, append_cons. by rewrite <- Hrest.
      * rewrite append_cons in Hab. injection Hab as -> Hab. apply IH. by exists a, b.
Qed.

Lemma split_head_fixed sep s : ¬ occurs sep s → split_head sep s = s.
Proof.
  induction s as [|c s IH]; intros Hocc.
  - apply split_head_nil.
  - rewrite split_head_cons. destruct (String.prefix sep (String c s)) eqn:Hp.
    + destruct Hocc. apply prefix_true in Hp as [r Hr]. exists "", r.
      by rewrite append_nil.
    + f_equal. apply IH. intros (a & b & Hab). apply Hocc.
      exists (String c a), b. rewrite append_cons. by rewrite Hab.
Qed.

Lemma occurs_prefix sep (s rest : string) : occurs sep s → occurs sep (s ++ rest)%string.
Proof.
  intros (a & b & ->). exists a, (b ++ rest)%string. by rewrite !string_app_assoc.
Qed.

(** X14 (quantms.py, get_project_prefix): the prefix is an initial part of
    the file name in which neither [.sdrf] nor [_openms] occurs; a name in
    which neither occurs is returned as it is, so that taking the prefix of
    a prefix changes nothing. *)
Theorem get_project_prefix_is_clean_prefix (filename : string) :
  (∃ rest : string, filename = (get_project_prefix filename ++ rest)%string)
  ∧ ¬ occurs ".sdrf" (get_project_prefix filename)
  ∧ ¬ occurs "_openms" (get_project_prefix filename)
  ∧ (¬ occurs ".sdrf" filename → ¬ occurs "_openms" filename →
     get_project_prefix filename = filename)
  ∧ get_project_prefix (get_project_prefix filename) = get_project_prefix filename.
Proof.
  unfold get_project_prefix.
  assert (¬ occurs ".sdrf" (split_head "_openms" (split_head ".sdrf" filename))) as Hsdrf.
  { destruct (split_head_prefix "_openms" (split_head ".sdrf" filename)) as [rest Hrest].
    intros Hocc. apply (split_head_no_occurrence ".sdrf" filename); [done|].
    rewrite Hrest. by apply occurs_prefix. }
  assert (¬ occurs "_openms" (split_head "_openms" (split_head ".sdrf" filename)))
    as Hopenms by (by apply split_head_no_occurrence).
  split; [|split; [done|split; [done|split]]].
  - destruct (split_head_prefix ".sdrf" filename) as [r1 Hr1].
    destruct (split_head_prefix "_openms" (split_head ".sdrf" filename)) as [r2 Hr2].
    exists (r2 ++ r1)%string. rewrite <- string_app_assoc, <- Hr2. done.
  - intros H1 H2. rewrite (split_head_fixed ".sdrf") by done. by apply split_head_fixed.
  - rewrite (split_head_fixed ".sdrf" (split_head _ _)) by done. by apply split_head_fixed.
Qed.

(** *** The workflow *)

Lemma find_file_None (matches : list string) : find_file matches = None ↔ matches = [].
Proof. by destruct matches. Qed.

Lemma workflow_guard d :
  negb (bool_decide (is_Some (find_file (mztab_matches d)))
        && bool_decide (is_Some (find_file (msstats_matches d)))
        && bool_decide (is_Some (find_file (sdrf_matches d)))
        && mzml_stats_exists d)
  = bool_decide (missing_files d ≠ []).
Proof.
  unfold missing_files.
  destruct (find_file (mztab_matches d)), (find_file (msstats_matches d)),
    (find_file (sdrf_matches d)), (mzml_stats_exists d); reflexivity.
Qed.

Lemma elem_of_missing_files d name :
  name ∈ missing_files d
  ↔ (name = "mzTab file" ∧ mztab_matches d = [])
    ∨ (name = "MSstats input file" ∧ msstats_matches d = [])
    ∨ (name = "SDRF file" ∧ sdrf_matches d = [])
    ∨ (name = "mzML statistics" ∧ mzml_stats_exists d = false).
Proof.
  unfold missing_files. rewrite !elem_of_app, <- !find_file_None.
  destruct (find_file (mztab_matches d)), (find_file (msstats_matches d)),
    (find_file (sdrf_matches d)), (mzml_stats_exists d);
    rewrite ?elem_of_nil, ?list_elem_of_singleton; naive_solver.
Qed.

(** X15 (quantms.py, quantmsio_workflow and find_file): the list of missing
    inputs names an input exactly when no file matches its pattern, or, for
    the mzML statistics, when the directory does not exist; when the list is
    not empty the workflow raises the usage error, with a message that
    lists these names, before it touches the output directory; when the list
    is empty and the output directory can be made, the workflow raises
    nothing, so the usage error never comes with an empty list. *)
Theorem quantmsio_workflow_missing_files (d : project_dir) :
  (∀ name, name ∈ missing_files d
           ↔ (name = "mzTab file" ∧ mztab_matches d = [])
             ∨ (name = "MSstats input file" ∧ msstats_matches d = [])
             ∨ (name = "SDRF file" ∧ sdrf_matches d = [])
             ∨ (name = "mzML statistics" ∧ mzml_stats_exists d = false))
  ∧ (missing_files d ≠ [] →
     quantmsio_workflow d
     = ([], Some (UsageError ("❌ Missing required files: "
                              ++ String.concat ", " (missing_files d))%string)))
  ∧ (missing_files d = [] → resolve d = None → check_dir d = None →
     (quantmsio_workflow d).2 = None).
Proof.
  split; [apply elem_of_missing_files|]. unfold quantmsio_workflow.
  rewrite workflow_guard. split.
  - intros Hm. by rewrite bool_decide_eq_true_2.
  - intros Hm -> ->. rewrite bool_decide_eq_false_2 by (by intros []).
    by destruct (initialize_project d).
Qed.

(** X16 (quantms.py, quantmsio_workflow): the workflow converts nothing.
    The first statement of project initialization calls [check_directory], a
    name the module neither defines nor imports; the [NameError] is caught by
    the handler of the [try] statement, which reports it and returns.  So no
    run initializes the project or starts the conversion of features or of
    PSMs, whatever the project directory holds, and a run that finds its
    inputs and its output directory ends after the failed initialization
    without raising. *)
Theorem quantmsio_workflow_never_converts (d : project_dir) :
  Forall (λ ev, conversion_event ev = false ∧ ev ≠ ProjectInitialized)
    (quantmsio_workflow d).1
  ∧ (missing_files d = [] → resolve d = None → check_dir d = None →
     quantmsio_workflow d
     = ([DirectoryChecked; ProjectInitFailed (NameError "check_directory")], None)).
Proof.
  assert (initialize_project d = Some (NameError "check_directory")) as Hinit
    by reflexivity.
  unfold quantmsio_workflow. rewrite workflow_guard, Hinit. split.
  - case_bool_decide; [constructor|].
    destruct (resolve d); [constructor|]. destruct (check_dir d); [constructor|].
    cbn [fst]. repeat constructor; done.
  - intros Hm -> ->. by rewrite bool_decide_eq_false_2 by (by intros []).
Qed.

(** * The [maxquant-feature] command *)

Lemma split_not_nil sep s : split sep s ≠ [].
Proof.
  destruct s as [|c s]; [done|]. cbn [split].
  case_bool_decide; [done|]. by destruct (split sep s).
Qed.

Lemma concat_cons_cons sep (x y : string) l :
  String.concat sep (x :: y :: l) = (x ++ sep ++ String.concat sep (y :: l))%string.
Proof. reflexivity. Qed.

Lemma concat_split sep s : String.concat (String sep "") (split sep s) = s.
Proof.
  induction s as [|c s IH]; [done|]. cbn [split].
  destruct (split sep s) as [|field fields] eqn:Hs; [by destruct (split_not_nil sep s)|].
  case_bool_decide as Hc.
  - subst c. rewrite concat_cons_cons, IH. reflexivity.
  - destruct fields as [|field' fields].
    + change (String c field = String c s). f_equal. exact IH.
    + rewrite concat_cons_cons in IH. rewrite concat_cons_cons. rewrite <- IH.
      reflexivity.
Qed.

Lemma split_fields sep s :
  Forall (λ field, ∀ a b : string, field ≠ (a ++ String sep b)%string) (split sep s).
Proof.
  induction s as [|c s IH]; cbn [split].
  - constructor; [|constructor]. intros [|x a] b; done.
  - pose proof (split_not_nil sep s) as Hne.
    destruct (split sep s) as [|field fields]; [done|]. clear Hne.
    apply Forall_cons in IH as [Hfield Hfields]. case_bool_decide as Hc.
    + constructor; [|by constructor]. intros [|x a] b; done.
    + constructor; [|done]. intros [|x a] b Heq.
      * injection Heq as -> _. done.
      * injection Heq as -> Heq. by eapply Hfield.
Qed.

(** X19 (maxquant.py, convert_maxquant_feature_cmd): the command calls the
    partitioned writer exactly when the option [--partitions] is given and
    not empty, and then with a list that is never empty, whose fields hold
    no comma and which, joined by commas, is the option as it was typed;
    without the option, or with an empty one, it calls the unpartitioned
    writer with the path made of the output folder and the file name. *)
Theorem convert_maxquant_feature_cmd_partitions
    (create_uuid_filename : string → string → string)
    (evidence_file sdrf_file output_folder : string)
    (partitions output_prefix : option string) :
  match convert_maxquant_feature_cmd create_uuid_filename (Some evidence_file)
          (Some sdrf_file) (Some output_folder) partitions output_prefix with
  | inr (write_features_to_file_call folder filename l) =>
      folder = output_folder ∧ l ≠ []
      ∧ (∃ option, partitions = Some option ∧ option ≠ ""
                   ∧ String.concat "," l = option)
      ∧ Forall (λ field, ∀ a b : string, field ≠ (a ++ String comma b)%string) l
  | inr (write_feature_to_file_call output_path) =>
      (partitions = None ∨ partitions = Some "")
      ∧ ∃ filename, output_path = (output_folder ++ "/" ++ filename)%string
  | inl _ => False
  end.
Proof.
  unfold convert_maxquant_feature_cmd.
  destruct partitions as [[|c option]|].
  - split; [by right|]. by eexists.
  - split; [done|]. split; [apply split_not_nil|]. split; [|apply split_fields].
    eexists. split; [done|]. split; [done|]. apply (concat_split comma).
  - split; [by left|]. by eexists.
Qed.
